(** * The generation session orchestrator of gpt_2

    A shallow embedding of [interact_model] from
    [src/gpt_2/interactive_conditional_samples.py]: parameter validation,
    construction of the inference session, and the interactive prompt loop.

    The tokenizer, the model definition, the sampler and the numerical
    framework are collaborators of the orchestrator; they are collected in
    the interface [Framework].  What the orchestrator does with them is
    recorded in a trace of events, and every way the program can stop is an
    exception: the Python function has no normal return, its loop ends when
    [input] reaches the end of the standard input. *)

From Stdlib Require Import Ascii.
From stdpp Require Import base list strings gmap pretty.

Local Open Scope Z_scope.

(** ** Data *)

(** Tokens are Python integers. *)
Abbreviation token := Z (only parsing).

(** The hyperparameter object is a bag of attributes; [setattr] and
    [getattr] act on it by attribute name.  The values are integers, as the
    data model has them ([contextWindow : integer]). *)
Abbreviation hparams := (gmap string Z) (only parsing).

(** The codec returned by [encoder.get_encoder]. *)
Record Encoder := {
  encode : string → list token;
  decode : list token → string
}.

(** The exceptions that can end a run.  [CollaboratorError] stands for any
    exception raised inside a collaborator (missing file, framework
    failure). *)
Inductive exn :=
| ZeroDivisionError
| AssertionError
| ValueError (msg : string)
| IndexError
| EOFError
| CollaboratorError.

(** The collaborators.  Each operation that can raise returns [None] when it
    does.  The two random-number generators the program seeds (numpy's
    global one and the one of the framework's graph) have states of type
    [generator]. *)
Class Framework := {
  float : Type;
  generator : Type;
  placeholder : Type;
  sampler : Type;
  checkpoint : Type;
  weights : Type;
  (* os.path.expandvars, os.path.expanduser *)
  expandvars : string → string;
  expanduser : string → string;
  (* encoder.get_encoder(model_name, models_dir) *)
  get_encoder : string → string → option Encoder;
  (* model.default_hparams() *)
  default_hparams : gmap string Z;
  (* open(path) followed by json.load: the items in file order *)
  json_load : string → option (list (string * Z));
  (* tf1.placeholder(tf.int32, [batch_size, None]) *)
  tf_placeholder : Z → option placeholder;
  (* the state a generator is put in by an integer seed *)
  generator_of_seed : Z → generator;
  (* sample.sample_sequence(hparams, length, context, batch_size,
     temperature, top_k, top_p), built in a graph whose seed is the first
     argument *)
  sample_sequence :
    option Z → gmap string Z → Z → placeholder → Z → float → Z → float →
    option sampler;
  (* tf1.train.latest_checkpoint(dir): Python None when there is none *)
  latest_checkpoint : string → option checkpoint;
  (* saver.restore(sess, ckpt) *)
  saver_restore : option checkpoint → option weights;
  (* sess.run(output, feed_dict={context: feed}) *)
  sess_run_step :
    sampler → weights → generator * generator → list (list token) →
    option (list (list token) * (generator * generator))
}.

(** ** Effects: a trace of events and an exception or a value *)

Section Orchestrator.
Context `{fw : Framework}.

(** The state of the generators: numpy's global generator and the generator
    behind the random operations of the sampling graph. *)
Record rngs := {
  np_rng : generator;
  tf_rng : generator
}.

(** What the process knows about randomness while the session is built:
    numpy's global state and the seed of the default graph. *)
Record rng_world := {
  np_state : generator;
  graph_seed : option Z
}.

(** A live session: the bound generation computation, the restored weights
    and the generators it draws from. *)
Record session := {
  sess_output : sampler;
  sess_weights : weights;
  sess_rngs : rngs
}.

Inductive event :=
| EGetEncoder (model_name models_dir : string)
| EDefaultHparams
| EOpenHparams (path : string)
| ESession
| EPlaceholder (batch_size : Z)
| ENpSeed (seed : option Z)
| ETfSeed (seed : option Z)
| ESampleSequence (graph_seed : option Z) (hp : gmap string Z)
    (length batch_size : Z) (temperature : float) (top_k : Z) (top_p : float)
| ESaver
| ELatestCheckpoint (dir : string)
| ERestore
| EAsk
| EPrint (line : string)
| EEncode (raw_text : string)
| ERun (feed : list (list token))
| EReturned (out : list (list token))
| EDecode (tokens : list token).

Definition M (A : Type) : Type := list event * (exn + A).

#[global] Instance M_ret : MRet M := λ A a, ([], inr a).

#[global] Instance M_bind : MBind M := λ A B f m,
  match m with
  | (t, inl e) => (t, inl e)
  | (t, inr a) => let (t', r) := f a in (t ++ t', r)
  end.

Definition tell (ev : event) : M unit := ([ev], inr tt).

Definition raise {A} (e : exn) : M A := ([], inl e).

(** A call into a collaborator that may raise. *)
Definition collab {A} (r : option A) : M A :=
  match r with
  | Some a => mret a
  | None => raise CollaboratorError
  end.

(** ** Helpers of the Python runtime *)

(** [s * n] on strings. *)
Fixpoint str_repeat_nat (s : string) (n : nat) : string :=
  match n with
  | O => ""
  | S n' => s +:+ str_repeat_nat s n'
  end.

Definition str_mul (s : string) (n : Z) : string := str_repeat_nat s (Z.to_nat n).

Fixpoint ends_with_sep (s : string) : bool :=
  match s with
  | EmptyString => false
  | String c EmptyString => bool_decide (c = "/"%char)
  | String _ s' => ends_with_sep s'
  end.

Definition starts_with_sep (s : string) : bool :=
  match s with
  | String c _ => bool_decide (c = "/"%char)
  | EmptyString => false
  end.

(** [os.path.join] of posixpath: an absolute component restarts the path,
    a separator is added unless the path is empty or ends with one. *)
Definition path_join (a : string) (p : list string) : string :=
  foldl (λ path b,
    if starts_with_sep b then b
    else if bool_decide (path = "") || ends_with_sep path then path +:+ b
    else path +:+ "/" +:+ b) a p.

(** ** interact_model, stage by stage *)

(** Lines 46-48: the default batch size and the divisibility assertion.
    [%] raises on a zero divisor. *)
Definition check_batch (nsamples : Z) (batch_size : option Z) : M Z :=
  let batch_size := default 1 batch_size in
  if decide (batch_size = 0) then raise ZeroDivisionError
  else if decide (nsamples `mod` batch_size = 0) then mret batch_size
  else raise AssertionError.

(** Lines 54-55: [setattr(hparams, k, v)] for every item, in order. *)
Definition overlay (hp : gmap string Z) (hparams_dict : list (string * Z)) : gmap string Z :=
  foldl (λ h kv, <[kv.1 := kv.2]> h) hp hparams_dict.

(** Line 57: [getattr(hparams, 'n_ctx', 1024)]. *)
Definition n_ctx_of (hp : gmap string Z) : Z := default 1024 (hp !! "n_ctx").

(** Lines 50-55: the encoder and the hyperparameters. *)
Definition load_model_metadata (model_name models_dir : string) : M (Encoder * gmap string Z) :=
  tell (EGetEncoder model_name models_dir);;
  enc ← collab (get_encoder model_name models_dir);
  tell EDefaultHparams;;
  let hp := default_hparams in
  let path := path_join models_dir [model_name; "hparams.json"] in
  tell (EOpenHparams path);;
  hparams_dict ← collab (json_load path);
  mret (enc, overlay hp hparams_dict).

Definition window_error (n_ctx : Z) : exn :=
  ValueError ("Can't get samples longer than window size: " +:+ pretty n_ctx).

(** Lines 58-61. *)
Definition resolve_length (length : option Z) (n_ctx : Z) : M Z :=
  match length with
  | None => mret (n_ctx `div` 2)
  | Some l => if decide (l > n_ctx) then raise (window_error n_ctx) else mret l
  end.

(** The seeds [np.random.seed] accepts: [None], and the integers from 0 to
    2**32 - 1. *)
Definition np_seed_in_range (seed : option Z) : Prop :=
  match seed with
  | Some v => 0 ≤ v < 2 ^ 32
  | None => True
  end.

(** [np.random.seed(seed)]: an integer seed from 0 to 2**32 - 1 fixes the
    state, [None] takes a fresh state from the entropy of the operating
    system, and any other integer makes numpy raise. *)
Definition np_random_seed (seed : option Z) (amb : rngs) (w : rng_world) :
    option rng_world :=
  match seed with
  | Some v =>
      if decide (0 ≤ v < 2 ^ 32) then
        Some {| np_state := generator_of_seed v; graph_seed := graph_seed w |}
      else None
  | None => Some {| np_state := np_rng amb; graph_seed := graph_seed w |}
  end.

(** [tf1.set_random_seed(seed)]: sets the seed of the default graph. *)
Definition set_random_seed (seed : option Z) (w : rng_world) : rng_world :=
  {| np_state := np_state w; graph_seed := seed |}.

(** The generator of the random operations built in a graph: derived from
    the seed the graph has when they are built, from the entropy of the
    operating system when it has none. *)
Definition graph_generator (gs : option Z) (amb : rngs) : generator :=
  match gs with
  | Some s => generator_of_seed s
  | None => tf_rng amb
  end.

(** Lines 65-80: the session and its graph, the placeholder, the seeding,
    the generation computation and the weights, in the order of the source.
    [amb] is what the entropy of the operating system yields in this run.
    (Lines 62-64 import the compatibility layer of the framework and switch
    it to graph mode; they leave no event.) *)
Definition build_session (model_name : string) (seed : option Z) (batch_size : Z)
    (hp : gmap string Z) (length : Z) (temperature : float) (top_k : Z) (top_p : float)
    (models_dir : string) (amb : rngs) : M session :=
  tell ESession;;
  let w := {| np_state := np_rng amb; graph_seed := None |} in
  tell (EPlaceholder batch_size);;
  context ← collab (tf_placeholder batch_size);
  tell (ENpSeed seed);;
  w ← collab (np_random_seed seed amb w);
  tell (ETfSeed seed);;
  let w := set_random_seed seed w in
  tell (ESampleSequence (graph_seed w) hp length batch_size temperature top_k top_p);;
  output ← collab (sample_sequence (graph_seed w) hp length context batch_size
                     temperature top_k top_p);
  let r := {| np_rng := np_state w; tf_rng := graph_generator (graph_seed w) amb |} in
  tell ESaver;;
  let dir := path_join models_dir [model_name] in
  tell (ELatestCheckpoint dir);;
  let ckpt := latest_checkpoint dir in
  tell ERestore;;
  wts ← collab (saver_restore ckpt);
  mret {| sess_output := output; sess_weights := wts; sess_rngs := r |}.

(** [sess.run(output, feed_dict={context: feed})]. *)
Definition sess_run (s : session) (feed : list (list token)) : M (list (list token) * session) :=
  tell (ERun feed);;
  res ← collab (sess_run_step (sess_output s) (sess_weights s)
                  (np_rng (sess_rngs s), tf_rng (sess_rngs s)) feed);
  tell (EReturned res.1);;
  mret (res.1, {| sess_output := sess_output s; sess_weights := sess_weights s;
                  sess_rngs := {| np_rng := res.2.1; tf_rng := res.2.2 |} |}).

Definition sample_header (generated : Z) : string :=
  str_mul "=" 40 +:+ " SAMPLE " +:+ pretty generated +:+ " " +:+ str_mul "=" 40.

Definition closing_separator : string := str_mul "=" 80.

Definition empty_notice : string := "Prompt should not be empty!".

(** Lines 94-98: the inner loop over [range(batch_size)], given as the list
    of indices still to visit. *)
Fixpoint report (enc : Encoder) (out : list (list token)) (idx : list nat)
    (generated : Z) : M Z :=
  match idx with
  | [] => mret generated
  | i :: idx' =>
      let generated := generated + 1 in
      match out !! i with
      | None => raise IndexError
      | Some row =>
          tell (EDecode row);;
          let text := decode enc row in
          tell (EPrint (sample_header generated));;
          tell (EPrint text);;
          report enc out idx' generated
      end
  end.

(** Lines 89-98: the loop over [range(nsamples // batch_size)], given as the
    number of rounds still to run. *)
Fixpoint generate_rounds (enc : Encoder) (batch_size : Z) (context_tokens : list token)
    (rounds : nat) (s : session) (generated : Z) : M (Z * session) :=
  match rounds with
  | O => mret (generated, s)
  | S rounds' =>
      res ← sess_run s (replicate (Z.to_nat batch_size) context_tokens);
      let out := drop (length context_tokens) <$> res.1 in
      generated ← report enc out (seq 0 (Z.to_nat batch_size)) generated;
      generate_rounds enc batch_size context_tokens rounds' res.2 generated
  end.

(** Lines 87-99: one non-empty prompt. *)
Definition serve_prompt (enc : Encoder) (nsamples batch_size : Z) (s : session)
    (raw_text : string) : M session :=
  tell (EEncode raw_text);;
  let context_tokens := encode enc raw_text in
  let generated := 0 in
  res ← generate_rounds enc batch_size context_tokens
          (Z.to_nat (nsamples `div` batch_size)) s generated;
  tell (EPrint closing_separator);;
  mret res.2.

(** Lines 82-99: the prompt loop, one line of the standard input at a time.
    An empty line prints the notice and asks again (the inner [while]); any
    other line is served and the outer [while True] asks for the next one.
    At the end of the input [input] raises. *)
Fixpoint serve (enc : Encoder) (nsamples batch_size : Z) (s : session)
    (stdin : list string) : M Empty_set :=
  match stdin with
  | [] => tell EAsk;; raise EOFError
  | raw_text :: stdin' =>
      tell EAsk;;
      if decide (raw_text = "") then
        tell (EPrint empty_notice);;
        serve enc nsamples batch_size s stdin'
      else
        s' ← serve_prompt enc nsamples batch_size s raw_text;
        serve enc nsamples batch_size s' stdin'
  end.

(** The whole function. *)
Definition interact_model (model_name : string) (seed : option Z) (nsamples : Z)
    (batch_size : option Z) (length : option Z) (temperature : float) (top_k : Z)
    (top_p : float) (models_dir : string) (amb : rngs) (stdin : list string) : M Empty_set :=
  let models_dir := expanduser (expandvars models_dir) in
  batch_size ← check_batch nsamples batch_size;
  md ← load_model_metadata model_name models_dir;
  let enc := md.1 in
  let hp := md.2 in
  let n_ctx := n_ctx_of hp in
  length ← resolve_length length n_ctx;
  s ← build_session model_name seed batch_size hp length temperature top_k top_p
        models_dir amb;
  serve enc nsamples batch_size s stdin.

(** ** Reading a trace *)

(** [prefixed t m]: the events [t] happen, then [m] runs. *)
Definition prefixed {A} (t : list event) (m : M A) : M A := (t ++ m.1, m.2).

(** The lines written by [print]. *)
Definition printed (t : list event) : list string :=
  omap (λ ev, match ev with EPrint l => Some l | _ => None end) t.

(** The batches fed to the generation computation, the arrays it returned,
    and the token sequences handed to [decode]. *)
Definition fed (t : list event) : list (list (list token)) :=
  omap (λ ev, match ev with ERun feed => Some feed | _ => None end) t.

Definition returned (t : list event) : list (list (list token)) :=
  omap (λ ev, match ev with EReturned out => Some out | _ => None end) t.

Definition decoded (t : list event) : list (list token) :=
  omap (λ ev, match ev with EDecode row => Some row | _ => None end) t.

(** The events of one completion, of one round that returned [arr], and of
    successive rounds; [first] is the number of completions shown before. *)
Definition sample_events (enc : Encoder) (ordinal : Z) (row : list token) : list event :=
  [EDecode row; EPrint (sample_header ordinal); EPrint (decode enc row)].

Definition round_events (enc : Encoder) (b : nat) (ctx : list token) (first : Z)
    (arr : list (list token)) : list event :=
  ERun (replicate b ctx) :: EReturned arr ::
  concat (imap (λ i row, sample_events enc (first + Z.of_nat i + 1)
                           (drop (length ctx) row)) arr).

Fixpoint rounds_events (enc : Encoder) (b : nat) (ctx : list token) (first : Z)
    (arrs : list (list (list token))) : list event :=
  match arrs with
  | [] => []
  | arr :: arrs' =>
      round_events enc b ctx first arr ++
      rounds_events enc b ctx (first + Z.of_nat b) arrs'
  end.

(** Events of the construction of the session, and events of the loop. *)
Definition setup_event (ev : event) : Prop :=
  match ev with
  | EGetEncoder _ _ | EDefaultHparams | EOpenHparams _ | ESession
  | EPlaceholder _ | ENpSeed _ | ETfSeed _ | ESampleSequence _ _ _ _ _ _ _
  | ESaver | ELatestCheckpoint _ | ERestore => True
  | _ => False
  end.

Definition loop_event (ev : event) : Prop :=
  match ev with
  | EAsk | EPrint _ | ERun _ | EReturned _ | EDecode _ => True
  | EEncode raw_text => raw_text ≠ ""
  | _ => False
  end.

Definition is_sampler_event (ev : event) : Prop :=
  match ev with
  | ESampleSequence _ _ _ _ _ _ _ => True
  | _ => False
  end.

(** What the engine answers to [k] successive requests for a batch of [b]
    copies of [ctx], from the session [s] on: the arrays it returns, in
    order, and the session it is left in; [None] when one of the requests
    raises. *)
Fixpoint engine_rounds (b : nat) (ctx : list token) (k : nat) (s : session) :
    option (list (list (list token)) * session) :=
  match k with
  | O => Some ([], s)
  | S k' =>
      res ← sess_run_step (sess_output s) (sess_weights s)
              (np_rng (sess_rngs s), tf_rng (sess_rngs s)) (replicate b ctx);
      rest ← engine_rounds b ctx k'
               {| sess_output := sess_output s; sess_weights := sess_weights s;
                  sess_rngs := {| np_rng := res.2.1; tf_rng := res.2.2 |} |};
      Some (res.1 :: rest.1, rest.2)
  end.

(** The engine answers every request that serving the lines [stdin] makes,
    from the session [s] on, each time with one sequence per batch slot. *)
Fixpoint engine_serves (enc : Encoder) (nsamples batch_size : Z) (stdin : list string)
    (s : session) : Prop :=
  match stdin with
  | [] => True
  | raw_text :: stdin' =>
      if decide (raw_text = "") then engine_serves enc nsamples batch_size stdin' s
      else
        ∃ arrs s',
          engine_rounds (Z.to_nat batch_size) (encode enc raw_text)
            (Z.to_nat (nsamples `div` batch_size)) s = Some (arrs, s') ∧
          Forall (λ arr, length arr = Z.to_nat batch_size) arrs ∧
          engine_serves enc nsamples batch_size stdin' s'
  end.

(** The events of the stages of the construction, in order. *)
Definition load_events (model_name dir : string) : list event :=
  [EGetEncoder model_name dir; EDefaultHparams;
   EOpenHparams (path_join dir [model_name; "hparams.json"])].

Definition seeding_events (seed : option Z) (batch_size : Z) : list event :=
  [ESession; EPlaceholder batch_size; ENpSeed seed; ETfSeed seed].

Definition restore_events (model_name dir : string) : list event :=
  [ESaver; ELatestCheckpoint (path_join dir [model_name]); ERestore].

(** The generators of a run seeded with [seed]: fixed by an integer seed,
    left to the entropy of the run without one. *)
Definition seeded_rngs (seed : option Z) (amb : rngs) : rngs :=
  match seed with
  | Some v => {| np_rng := generator_of_seed v; tf_rng := generator_of_seed v |}
  | None => amb
  end.

(** [confined P Q m]: every event of [m] satisfies [P] and every exception
    it can end in satisfies [Q]. *)
Definition confined {A} (P : event → Prop) (Q : exn → Prop) (m : M A) : Prop :=
  Forall P m.1 ∧ ∀ e, m.2 = inl e → Q e.

Definition loop_exn (e : exn) : Prop :=
  e = IndexError ∨ e = EOFError ∨ e = CollaboratorError.

(** The texts handed to [encode], and the number of calls of [input]. *)
Definition encoded (t : list event) : list string :=
  omap (λ ev, match ev with EEncode raw_text => Some raw_text | _ => None end) t.

Definition asked (t : list event) : nat :=
  length (omap (λ ev, match ev with EAsk => Some tt | _ => None end) t).

(** The events of the completions shown for [rows], numbered from
    [first + 1]. *)
Definition samples_events (enc : Encoder) (first : Z) (rows : list (list token)) :
    list event :=
  concat (imap (λ i row, sample_events enc (first + Z.of_nat i + 1) row) rows).

(** The lines printed for [rows], numbered from [first + 1]. *)
Definition samples_lines (enc : Encoder) (first : Z) (rows : list (list token)) :
    list string :=
  concat (imap (λ i row, [sample_header (first + Z.of_nat i + 1); decode enc row]) rows).

(** All the events of a construction that succeeds. *)
Definition construction_events (model_name : string) (seed : option Z) (b : Z)
    (hp : gmap string Z) (len : Z) (temperature : float) (top_k : Z) (top_p : float)
    (dir : string) : list event :=
  load_events model_name dir ++ seeding_events seed b ++
  ESampleSequence seed hp len b temperature top_k top_p :: restore_events model_name dir.

End Orchestrator.

(** ** A small concrete framework

    A stand-in for the collaborators on which the orchestrator can be run:
    the codec maps characters to their codes, the model directory holds the
    metadata of the 124M model, and the engine appends [length] copies of
    a token drawn from the graph generator to every row it is fed. *)

Module Demo.

Definition demo_encode (s : string) : list token :=
  (λ c, Z.of_nat (nat_of_ascii c)) <$> String.list_ascii_of_string s.

Definition demo_decode (ts : list token) : string :=
  String.string_of_list_ascii ((λ t, ascii_of_nat (Z.to_nat t)) <$> ts).

Definition demo_encoder : Encoder :=
  {| encode := demo_encode; decode := demo_decode |}.

Definition demo_default_hparams : gmap string Z :=
  <["n_layer" := 12]> (<["n_head" := 12]> (<["n_embd" := 768]>
    (<["n_ctx" := 1024]> (<["n_vocab" := 0]> ∅)))).

Definition demo_metadata : list (string * Z) :=
  [("n_vocab", 50257); ("n_ctx", 1024); ("n_embd", 768); ("n_head", 12);
   ("n_layer", 12)].

Definition demo_run (len : Z) (w : unit) (r : Z * Z) (feed : list (list token)) :
    option (list (list token) * (Z * Z)) :=
  Some ((λ row, row ++ replicate (Z.to_nat len) r.2) <$> feed, (r.1, r.2 + 1)).

#[local] Instance demo_fw : Framework := {|
  float := Z;
  generator := Z;
  placeholder := Z;
  sampler := Z;
  checkpoint := string;
  weights := unit;
  expandvars := λ s, s;
  expanduser := λ s, s;
  get_encoder := λ model_name models_dir,
    if bool_decide (model_name = "124M") then Some demo_encoder else None;
  default_hparams := demo_default_hparams;
  json_load := λ path,
    if bool_decide (path = "models/124M/hparams.json") then Some demo_metadata
    else None;
  tf_placeholder := λ batch_size, Some batch_size;
  generator_of_seed := λ s, s;
  sample_sequence := λ gs hp len ctx b t k p, Some len;
  latest_checkpoint := λ dir, Some (dir +:+ "/model.ckpt");
  saver_restore := λ ckpt, match ckpt with Some _ => Some tt | None => None end;
  sess_run_step := demo_run
|}.

(** A live session of the small framework bound to length 3. *)
Definition demo_session : session (fw := demo_fw) :=
  {| sess_output := 3; sess_weights := tt;
     sess_rngs := {| np_rng := 7; tf_rng := 65 |} |}.

(** The entropy of two different runs. *)
Definition amb1 : rngs (fw := demo_fw) := {| np_rng := 7; tf_rng := 65 |}.
Definition amb2 : rngs (fw := demo_fw) := {| np_rng := 8; tf_rng := 66 |}.

(** The same framework for a model whose defaults and metadata have no
    [n_ctx]; the metadata brings an attribute the defaults do not have. *)
Definition bare_metadata : list (string * Z) := [("n_extra", 7)].

#[local] Instance bare_fw : Framework := {|
  float := Z;
  generator := Z;
  placeholder := Z;
  sampler := Z;
  checkpoint := string;
  weights := unit;
  expandvars := λ s, s;
  expanduser := λ s, s;
  get_encoder := λ model_name models_dir, Some demo_encoder;
  default_hparams := ∅;
  json_load := λ path, Some bare_metadata;
  tf_placeholder := λ batch_size, Some batch_size;
  generator_of_seed := λ s, s;
  sample_sequence := λ gs hp len ctx b t k p, Some len;
  latest_checkpoint := λ dir, Some (dir +:+ "/model.ckpt");
  saver_restore := λ ckpt, match ckpt with Some _ => Some tt | None => None end;
  sess_run_step := demo_run
|}.

(** The small framework with an engine that leaves out the last sequence of
    every batch, and with an engine that raises. *)
Definition short_run (len : Z) (w : unit) (r : Z * Z) (feed : list (list token)) :
    option (list (list token) * (Z * Z)) :=
  Some ((λ row, row ++ replicate (Z.to_nat len) r.2) <$> take (length feed - 1) feed,
        (r.1, r.2 + 1)).

#[local] Instance short_fw : Framework := {|
  float := Z;
  generator := Z;
  placeholder := Z;
  sampler := Z;
  checkpoint := string;
  weights := unit;
  expandvars := λ s, s;
  expanduser := λ s, s;
  get_encoder := λ model_name models_dir, Some demo_encoder;
  default_hparams := demo_default_hparams;
  json_load := λ path, Some demo_metadata;
  tf_placeholder := λ batch_size, Some batch_size;
  generator_of_seed := λ s, s;
  sample_sequence := λ gs hp len ctx b t k p, Some len;
  latest_checkpoint := λ dir, Some (dir +:+ "/model.ckpt");
  saver_restore := λ ckpt, match ckpt with Some _ => Some tt | None => None end;
  sess_run_step := short_run
|}.

#[local] Instance failing_fw : Framework := {|
  float := Z;
  generator := Z;
  placeholder := Z;
  sampler := Z;
  checkpoint := string;
  weights := unit;
  expandvars := λ s, s;
  expanduser := λ s, s;
  get_encoder := λ model_name models_dir, Some demo_encoder;
  default_hparams := demo_default_hparams;
  json_load := λ path, Some demo_metadata;
  tf_placeholder := λ batch_size, Some batch_size;
  generator_of_seed := λ s, s;
  sample_sequence := λ gs hp len ctx b t k p, Some len;
  latest_checkpoint := λ dir, Some (dir +:+ "/model.ckpt");
  saver_restore := λ ckpt, match ckpt with Some _ => Some tt | None => None end;
  sess_run_step := λ _ _ _ _, None
|}.

End Demo.

(** ** Laws of the effect monad *)

#[global] Arguments M_bind : simpl never.
#[global] Arguments M_ret : simpl never.
#[global] Arguments tell : simpl never.
#[global] Arguments raise : simpl never.
#[global] Arguments collab : simpl never.
#[global] Arguments path_join : simpl never.

Section MonadLaws.
Context `{fw : Framework}.

Lemma bind_unfold {A B} (m : M A) (f : A → M B) :
  m ≫= f = match m.2 with
           | inl e => (m.1, inl e)
           | inr a => prefixed m.1 (f a)
           end.
Proof.
  destruct m as [t [e|a]]; [reflexivity|].
  unfold mbind, M_bind, prefixed; simpl. by destruct (f a).
Qed.

Lemma pair_bind {A B} (t : list event) (a : A) (f : A → M B) :
  ((t, inr a) : M A) ≫= f = prefixed t (f a).
Proof. by rewrite bind_unfold. Qed.

Lemma mret_bind {A B} (a : A) (f : A → M B) : mret a ≫= f = f a.
Proof. rewrite bind_unfold; simpl. by destruct (f a). Qed.

Lemma raise_bind {A B} (e : exn) (f : A → M B) : raise e ≫= f = raise e.
Proof. reflexivity. Qed.

Lemma tell_bind {B} (ev : event) (f : unit → M B) :
  tell ev ≫= f = prefixed [ev] (f tt).
Proof. by rewrite bind_unfold. Qed.

Lemma collab_Some_bind {A B} (a : A) (f : A → M B) : collab (Some a) ≫= f = f a.
Proof. apply mret_bind. Qed.

Lemma collab_None_bind {A B} (f : A → M B) :
  collab None ≫= f = raise CollaboratorError.
Proof. reflexivity. Qed.

Lemma prefixed_prefixed {A} (t1 t2 : list event) (m : M A) :
  prefixed t1 (prefixed t2 m) = prefixed (t1 ++ t2) m.
Proof. unfold prefixed; simpl. by rewrite app_assoc. Qed.

Lemma prefixed_bind {A B} (t : list event) (m : M A) (f : A → M B) :
  prefixed t m ≫= f = prefixed t (m ≫= f).
Proof.
  rewrite !bind_unfold. destruct m as [t' [e|a]]; simpl; [reflexivity|].
  by rewrite prefixed_prefixed.
Qed.

Lemma prefixed_pair {A} (t t' : list event) (r : exn + A) :
  prefixed t ((t', r) : M A) = (t ++ t', r).
Proof. reflexivity. Qed.

Lemma prefixed_raise {A} (t : list event) (e : exn) :
  prefixed t (raise e : M A) = (t, inl e).
Proof. unfold prefixed; simpl. by rewrite app_nil_r. Qed.

Lemma prefixed_mret {A} (t : list event) (a : A) :
  prefixed t (mret a : M A) = (t, inr a).
Proof. unfold prefixed; simpl. by rewrite app_nil_r. Qed.

End MonadLaws.

Create Rewrite HintDb orchestrator.

#[global] Hint Rewrite @pair_bind @mret_bind @raise_bind @tell_bind @collab_Some_bind
  @collab_None_bind @prefixed_prefixed @prefixed_bind @prefixed_raise
  @prefixed_mret @prefixed_pair : orchestrator.

Ltac run_step := autorewrite with orchestrator.

(** ** Validation and the resolution of the generation length *)

Section Validation.
Context `{fw : Framework}.

Lemma check_batch_cases (nsamples : Z) (batch_size : option Z) :
  let b := default 1 batch_size in
  (b = 0 ∧ check_batch nsamples batch_size = raise ZeroDivisionError) ∨
  (b ≠ 0 ∧ nsamples `mod` b ≠ 0 ∧ check_batch nsamples batch_size = raise AssertionError) ∨
  (b ≠ 0 ∧ nsamples `mod` b = 0 ∧ check_batch nsamples batch_size = mret b).
Proof.
  intros b. unfold check_batch. fold b.
  destruct (decide (b = 0)) as [Hb|Hb]; [by left|].
  destruct (decide (nsamples `mod` b = 0)); right; [right|left]; done.
Qed.

Lemma check_batch_passes (nsamples : Z) (batch_size : option Z) :
  default 1 batch_size ≠ 0 → nsamples `mod` default 1 batch_size = 0 →
  check_batch nsamples batch_size = mret (default 1 batch_size).
Proof.
  intros Hb Hm. destruct (check_batch_cases nsamples batch_size) as [[? _]|[(_&?&_)|(_&_&?)]];
    done.
Qed.

Lemma load_model_metadata_ok (model_name models_dir : string) enc dict :
  get_encoder model_name models_dir = Some enc →
  json_load (path_join models_dir [model_name; "hparams.json"]) = Some dict →
  load_model_metadata model_name models_dir =
    ([EGetEncoder model_name models_dir; EDefaultHparams;
      EOpenHparams (path_join models_dir [model_name; "hparams.json"])],
     inr (enc, overlay default_hparams dict)).
Proof.
  intros Henc Hjson. unfold load_model_metadata. rewrite Henc, Hjson.
  by run_step.
Qed.

(** The trace of the metadata stage is a prefix of the three load events. *)
Lemma load_model_metadata_cases (model_name models_dir : string) :
  let path := path_join models_dir [model_name; "hparams.json"] in
  let loads := [EGetEncoder model_name models_dir; EDefaultHparams; EOpenHparams path] in
  load_model_metadata model_name models_dir = (take 1 loads, inl CollaboratorError) ∨
  load_model_metadata model_name models_dir = (loads, inl CollaboratorError) ∨
  ∃ enc dict,
    get_encoder model_name models_dir = Some enc ∧ json_load path = Some dict ∧
    load_model_metadata model_name models_dir = (loads, inr (enc, overlay default_hparams dict)).
Proof.
  intros path loads. unfold load_model_metadata. fold path.
  destruct (get_encoder model_name models_dir) as [enc|] eqn:Henc; [|left; by run_step].
  destruct (json_load path) as [dict|] eqn:Hjson; right; [right|left]; run_step; [|done].
  by exists enc, dict.
Qed.

(** C2.  A sample count that is not a multiple of the batch size stops the
    program at the check of line 48, with nothing attempted before it: the
    trace is empty.  Conversely, whenever the check lets the program go on,
    the batch size is not zero and divides the sample count. *)
Theorem batch_ratio_checked_first (model_name : string) (seed : option Z)
    (nsamples : Z) (batch_size length : option Z) (temperature : float) (top_k : Z)
    (top_p : float) (models_dir : string) (amb : rngs) (stdin : list string) :
  let b := default 1 batch_size in
  let run := interact_model model_name seed nsamples batch_size length temperature
               top_k top_p models_dir amb stdin in
  (¬ (b | nsamples) →
     run = ([], inl ZeroDivisionError) ∨ run = ([], inl AssertionError)) ∧
  (∀ b', check_batch nsamples batch_size = mret b' →
     b' = b ∧ b ≠ 0 ∧ nsamples `mod` b = 0) ∧
  (run.1 ≠ [] → b ≠ 0 ∧ nsamples `mod` b = 0).
Proof.
  intros b run. subst run. unfold interact_model.
  destruct (check_batch_cases nsamples batch_size) as [[Hb Hc]|[(Hb&Hm&Hc)|(Hb&Hm&Hc)]];
    fold b in Hb, Hc; try fold b in Hm; rewrite Hc.
  - rewrite raise_bind. split_and!; [by left| |done].
    intros b' Hb'. discriminate.
  - rewrite raise_bind. split_and!; [by right| |done].
    intros b' Hb'. discriminate.
  - split_and!; [|by intros b' [= <-]|done].
    intros Hdiv. destruct Hdiv. by apply Z.mod_divide.
Qed.

End Validation.

(** Witness of C2 on the small framework: three samples in batches of two
    are refused with an empty trace; four samples in batches of two pass. *)
Lemma batch_ratio_checked_first_witness :
  (interact_model (fw := Demo.demo_fw) "124M" None 3 (Some 2) None 1 0 1 "models"
     Demo.amb1 ["Hi"] = ([], inl ZeroDivisionError) ∨
   interact_model (fw := Demo.demo_fw) "124M" None 3 (Some 2) None 1 0 1 "models"
     Demo.amb1 ["Hi"] = ([], inl AssertionError)) ∧
  (2 ≠ 0 ∧ 4 `mod` 2 = 0).
Proof.
  split.
  - apply (batch_ratio_checked_first (fw := Demo.demo_fw) "124M" None 3 (Some 2) None
             1 0 1 "models" Demo.amb1 ["Hi"]).
    intros [z Hz]. simpl in Hz. lia.
  - apply (batch_ratio_checked_first (fw := Demo.demo_fw) "absent" None 4 (Some 2)
             (Some 1) 1 0 1 "models" Demo.amb1 []).
    change ([EGetEncoder (fw := Demo.demo_fw) "absent" "models"] ≠ []).
    discriminate.
Defined.

Section LengthResolution.
Context `{fw : Framework}.

Lemma resolve_length_unset (n_ctx : Z) : resolve_length None n_ctx = mret (n_ctx `div` 2).
Proof. reflexivity. Qed.

Lemma resolve_length_oversized (l n_ctx : Z) :
  l > n_ctx → resolve_length (Some l) n_ctx = raise (window_error n_ctx).
Proof. intros Hl. unfold resolve_length. by destruct (decide (l > n_ctx)). Qed.

Lemma resolve_length_fits (l n_ctx : Z) :
  l ≤ n_ctx → resolve_length (Some l) n_ctx = mret l.
Proof. intros Hl. unfold resolve_length. destruct (decide (l > n_ctx)); [lia|done]. Qed.

(** C1.  Once the batch check has passed and the encoder and the metadata
    are loaded, let [w] be the window of the overlaid hyperparameters.  With
    no length given, the rest of the run is the construction of the session
    and the loop at length [w // 2].  With a length above [w], the run ends
    in the ValueError that prints [w], and its trace stops at the three load
    events: no session is entered. *)
Theorem length_resolved_against_window (model_name : string) (seed : option Z)
    (nsamples : Z) (batch_size length : option Z) (temperature : float) (top_k : Z)
    (top_p : float) (models_dir : string) (amb : rngs) (stdin : list string)
    (enc : Encoder) (dict : list (string * Z)) :
  let b := default 1 batch_size in
  let dir := expanduser (expandvars models_dir) in
  let path := path_join dir [model_name; "hparams.json"] in
  let hp := overlay default_hparams dict in
  let w := n_ctx_of hp in
  let loads := [EGetEncoder model_name dir; EDefaultHparams; EOpenHparams path] in
  let run := interact_model model_name seed nsamples batch_size length temperature
               top_k top_p models_dir amb stdin in
  b ≠ 0 → nsamples `mod` b = 0 →
  get_encoder model_name dir = Some enc → json_load path = Some dict →
  (length = None →
     run = prefixed loads
             (s ← build_session model_name seed b hp (w `div` 2) temperature top_k
                    top_p dir amb;
              serve enc nsamples b s stdin)) ∧
  (∀ l, length = Some l → l > w →
     run = (loads, inl (ValueError
                          ("Can't get samples longer than window size: " +:+ pretty w))) ∧
     ESession ∉ run.1).
Proof.
  intros b dir path hp w loads run Hb Hm Henc Hjson.
  assert (Hrun : run = prefixed loads
            (len ← resolve_length length w;
             s ← build_session model_name seed b hp len temperature top_k top_p dir amb;
             serve enc nsamples b s stdin)).
  { subst run. unfold interact_model. cbv zeta.
    rewrite (check_batch_passes _ _ Hb Hm), mret_bind.
    fold b dir.
    rewrite (load_model_metadata_ok _ _ _ _ Henc Hjson).
    rewrite bind_unfold. reflexivity. }
  split.
  - intros ->. by rewrite Hrun, resolve_length_unset, mret_bind.
  - intros l -> Hl.
    assert (Hfail : run = (loads, inl (window_error w))).
    { rewrite Hrun, (resolve_length_oversized _ _ Hl). by run_step. }
    rewrite Hfail. split; [reflexivity|]. simpl. subst loads.
    intros Hin. repeat (apply elem_of_cons in Hin as [Hin|Hin]; [discriminate|]).
    by apply elem_of_nil in Hin.
Qed.

End LengthResolution.

(** Witness of C1 on the small framework, whose window is 1024: with no
    length the session is built at length 512, and a length of 2000 is
    refused. *)
Lemma length_resolved_against_window_witness :
  interact_model (fw := Demo.demo_fw) "124M" None 1 None None 1 0 1 "models"
    Demo.amb1 ["Hi"] =
  prefixed [EGetEncoder "124M" "models"; EDefaultHparams;
            EOpenHparams "models/124M/hparams.json"]
    (s ← build_session (fw := Demo.demo_fw) "124M" None 1
           (overlay Demo.demo_default_hparams Demo.demo_metadata) 512 1 0 1 "models"
           Demo.amb1;
     serve Demo.demo_encoder 1 1 s ["Hi"]) ∧
  interact_model (fw := Demo.demo_fw) "124M" None 1 None (Some 2000) 1 0 1 "models"
    Demo.amb1 ["Hi"] =
  ([EGetEncoder "124M" "models"; EDefaultHparams;
    EOpenHparams "models/124M/hparams.json"],
   inl (ValueError "Can't get samples longer than window size: 1024")).
Proof.
  split.
  - destruct (length_resolved_against_window (fw := Demo.demo_fw) "124M" None 1 None None
                1 0 1 "models" Demo.amb1 ["Hi"] Demo.demo_encoder Demo.demo_metadata)
      as [Hunset _]; [simpl; lia | reflexivity | reflexivity | reflexivity |].
    exact (Hunset eq_refl).
  - destruct (length_resolved_against_window (fw := Demo.demo_fw) "124M" None 1 None
                (Some 2000) 1 0 1 "models" Demo.amb1 ["Hi"] Demo.demo_encoder
                Demo.demo_metadata)
      as [_ Hset]; [simpl; lia | reflexivity | reflexivity | reflexivity |].
    destruct (Hset 2000 eq_refl) as [Hrun _]; [vm_compute; reflexivity|].
    exact Hrun.
Defined.

(** ** The prompt loop *)

Section Loop.
Context `{fw : Framework}.

Lemma confined_mret {A} P Q (a : A) : confined P Q (mret a).
Proof. split; [constructor|]. intros e [=]. Qed.

Lemma confined_raise {A} (P : event → Prop) (Q : exn → Prop) (e : exn) :
  Q e → confined P Q (raise e : M A).
Proof. intros He. split; [constructor|]. by intros e' [= <-]. Qed.

Lemma confined_tell (P : event → Prop) Q (ev : event) : P ev → confined P Q (tell ev).
Proof. intros Hev. split; [simpl; by apply Forall_singleton|]. intros e [=]. Qed.

Lemma confined_collab {A} P (Q : exn → Prop) (r : option A) :
  Q CollaboratorError → confined P Q (collab r).
Proof. intros HQ. destruct r; [apply confined_mret|by apply confined_raise]. Qed.

Lemma confined_bind {A B} P Q (m : M A) (f : A → M B) :
  confined P Q m → (∀ a, m.2 = inr a → confined P Q (f a)) → confined P Q (m ≫= f).
Proof.
  intros [Hm1 Hm2] Hf. rewrite bind_unfold.
  destruct m as [t [e|a]]; simpl in *.
  { split; simpl; [done|]. intros e0 [= <-]. by apply Hm2. }
  destruct (Hf a eq_refl) as [Hf1 Hf2]. split; simpl; [|done].
  by apply Forall_app.
Qed.

(** The equations of the loops. *)
Lemma report_cons (enc : Encoder) out i idx generated :
  report enc out (i :: idx) generated =
  match out !! i with
  | None => raise IndexError
  | Some row =>
      tell (EDecode row);;
      tell (EPrint (sample_header (generated + 1)));;
      tell (EPrint (decode enc row));;
      report enc out idx (generated + 1)
  end.
Proof. reflexivity. Qed.

Lemma generate_rounds_S (enc : Encoder) b ctx rounds s generated :
  generate_rounds enc b ctx (S rounds) s generated =
  (res ← sess_run s (replicate (Z.to_nat b) ctx);
   generated' ← report enc (drop (length ctx) <$> res.1) (seq 0 (Z.to_nat b)) generated;
   generate_rounds enc b ctx rounds res.2 generated').
Proof. reflexivity. Qed.

Lemma serve_cons (enc : Encoder) n b s raw_text stdin :
  serve enc n b s (raw_text :: stdin) =
  (tell EAsk;;
   if decide (raw_text = "") then
     tell (EPrint empty_notice);; serve enc n b s stdin
   else
     s' ← serve_prompt enc n b s raw_text; serve enc n b s' stdin).
Proof. reflexivity. Qed.

Lemma report_confined (enc : Encoder) out idx generated :
  confined loop_event loop_exn (report enc out idx generated).
Proof.
  revert generated. induction idx as [|i idx IH]; intros generated.
  - apply confined_mret.
  - rewrite report_cons.
    destruct (out !! i) as [row|]; [|apply confined_raise; by left].
    repeat (apply confined_bind; [apply confined_tell; simpl; done|intros _ _]).
    apply IH.
Qed.

Lemma sess_run_confined (s : session) feed :
  confined loop_event loop_exn (sess_run s feed).
Proof.
  unfold sess_run.
  apply confined_bind; [apply confined_tell; simpl; done|intros _ _].
  apply confined_bind; [apply confined_collab; by right; right|intros res _].
  apply confined_bind; [apply confined_tell; simpl; done|intros _ _].
  apply confined_mret.
Qed.

Lemma generate_rounds_confined (enc : Encoder) b ctx rounds s generated :
  confined loop_event loop_exn (generate_rounds enc b ctx rounds s generated).
Proof.
  revert s generated. induction rounds as [|rounds IH]; intros s generated.
  - apply confined_mret.
  - rewrite generate_rounds_S.
    apply confined_bind; [apply sess_run_confined|intros res _].
    apply confined_bind; [apply report_confined|intros g _]. apply IH.
Qed.

Lemma serve_prompt_confined (enc : Encoder) n b s raw_text :
  raw_text ≠ "" → confined loop_event loop_exn (serve_prompt enc n b s raw_text).
Proof.
  intros Hraw. unfold serve_prompt.
  apply confined_bind; [apply confined_tell; simpl; done|intros _ _].
  apply confined_bind; [apply generate_rounds_confined|intros res _].
  apply confined_bind; [apply confined_tell; simpl; done|intros _ _].
  apply confined_mret.
Qed.

(** The loop only asks, encodes non-empty prompts, runs, decodes and
    prints, and it can only end in an exception of [input], of indexing or
    of a collaborator. *)
Lemma serve_confined (enc : Encoder) n b s stdin :
  confined loop_event loop_exn (serve enc n b s stdin).
Proof.
  revert s. induction stdin as [|raw_text stdin IH]; intros s.
  - apply confined_bind; [apply confined_tell; simpl; done|intros _ _].
    apply confined_raise. by right; left.
  - rewrite serve_cons.
    apply confined_bind; [apply confined_tell; simpl; done|intros _ _].
    destruct (decide (raw_text = "")) as [Hraw|Hraw].
    + apply confined_bind; [apply confined_tell; simpl; done|intros _ _]. apply IH.
    + apply confined_bind; [by apply serve_prompt_confined|intros s' _]. apply IH.
Qed.

Lemma serve_empty_line (enc : Encoder) n b s stdin :
  serve enc n b s ("" :: stdin) =
  prefixed [EAsk; EPrint empty_notice] (serve enc n b s stdin).
Proof. rewrite serve_cons. by run_step. Qed.

Lemma serve_prompt_line (enc : Encoder) n b s raw_text stdin :
  raw_text ≠ "" →
  serve enc n b s (raw_text :: stdin) =
  prefixed [EAsk] (s' ← serve_prompt enc n b s raw_text; serve enc n b s' stdin).
Proof.
  intros Hraw. rewrite serve_cons. destruct (decide (raw_text = "")); [done|].
  by run_step.
Qed.

End Loop.

(** ** The rounds of one prompt *)

Section Rounds.
Context `{fw : Framework}.

(** *** What a trace of rounds shows *)

Lemma omap_concat_imap {X Y} (g : event → option X) (f : nat → Y → list event)
    (l : list Y) :
  omap g (concat (imap f l)) = concat (imap (λ i x, omap g (f i x)) l).
Proof.
  revert f. induction l as [|x l IH]; intros f; [done|].
  simpl. by rewrite omap_app, IH.
Qed.

Lemma concat_imap_nil {X Y} (l : list Y) :
  concat (imap (λ _ _, @nil X) l) = [].
Proof. induction l as [|x l IH]; [done|]. exact IH. Qed.

Lemma concat_imap_singleton {X Y} (h : Y → X) (l : list Y) :
  concat (imap (λ _ x, [h x]) l) = h <$> l.
Proof. induction l as [|x l IH]; [done|]. csimpl. f_equal. exact IH. Qed.

Lemma printed_round (enc : Encoder) b ctx first arr :
  printed (round_events enc b ctx first arr) =
  concat (imap (λ i row, [sample_header (first + Z.of_nat i + 1);
                          decode enc (drop (length ctx) row)]) arr).
Proof. unfold printed, round_events. simpl. by rewrite omap_concat_imap. Qed.

Lemma fed_round (enc : Encoder) b ctx first arr :
  fed (round_events enc b ctx first arr) = [replicate b ctx].
Proof.
  unfold fed, round_events. simpl. rewrite omap_concat_imap. simpl.
  by rewrite concat_imap_nil.
Qed.

Lemma returned_round (enc : Encoder) b ctx first arr :
  returned (round_events enc b ctx first arr) = [arr].
Proof.
  unfold returned, round_events. simpl. rewrite omap_concat_imap. simpl.
  by rewrite concat_imap_nil.
Qed.

Lemma decoded_round (enc : Encoder) b ctx first arr :
  decoded (round_events enc b ctx first arr) = drop (length ctx) <$> arr.
Proof.
  unfold decoded, round_events. simpl. rewrite omap_concat_imap. simpl.
  by rewrite concat_imap_singleton.
Qed.

Lemma rounds_events_cons (enc : Encoder) b ctx first arr arrs :
  rounds_events enc b ctx first (arr :: arrs) =
  round_events enc b ctx first arr ++
  rounds_events enc b ctx (first + Z.of_nat b) arrs.
Proof. reflexivity. Qed.

Lemma printed_app (t1 t2 : list event) : printed (t1 ++ t2) = printed t1 ++ printed t2.
Proof. apply omap_app. Qed.

Lemma fed_app (t1 t2 : list event) : fed (t1 ++ t2) = fed t1 ++ fed t2.
Proof. apply omap_app. Qed.

Lemma returned_app (t1 t2 : list event) : returned (t1 ++ t2) = returned t1 ++ returned t2.
Proof. apply omap_app. Qed.

Lemma decoded_app (t1 t2 : list event) : decoded (t1 ++ t2) = decoded t1 ++ decoded t2.
Proof. apply omap_app. Qed.

Lemma fed_rounds (enc : Encoder) b ctx arrs :
  ∀ first, fed (rounds_events enc b ctx first arrs) =
           replicate (length arrs) (replicate b ctx).
Proof.
  induction arrs as [|arr arrs IH]; intros first; [done|].
  by rewrite rounds_events_cons, fed_app, fed_round, IH.
Qed.

Lemma returned_rounds (enc : Encoder) b ctx arrs :
  ∀ first, returned (rounds_events enc b ctx first arrs) = arrs.
Proof.
  induction arrs as [|arr arrs IH]; intros first; [done|].
  by rewrite rounds_events_cons, returned_app, returned_round, IH.
Qed.

Lemma decoded_rounds (enc : Encoder) b ctx arrs :
  ∀ first, decoded (rounds_events enc b ctx first arrs) =
           drop (length ctx) <$> concat arrs.
Proof.
  induction arrs as [|arr arrs IH]; intros first; [done|].
  rewrite rounds_events_cons, decoded_app, decoded_round, IH.
  simpl concat. by rewrite fmap_app.
Qed.

(** The printed lines of successive full rounds: header and text of the
    completions, numbered consecutively from [first + 1]. *)
Lemma printed_rounds (enc : Encoder) b ctx arrs :
  Forall (λ arr, length arr = b) arrs →
  ∀ first, printed (rounds_events enc b ctx first arrs) =
           concat (imap (λ i row, [sample_header (first + Z.of_nat i + 1);
                                   decode enc row])
                     (drop (length ctx) <$> concat arrs)).
Proof.
  induction 1 as [|arr arrs Hlen _ IH]; intros first; [done|].
  rewrite rounds_events_cons, printed_app, printed_round, IH.
  simpl concat. rewrite fmap_app, imap_app, concat_app, length_fmap, Hlen.
  f_equal.
  - by rewrite imap_fmap.
  - f_equal. apply imap_ext. intros i row _. simpl. do 2 f_equal. lia.
Qed.

Lemma restore_prefix (ctx : list token) (rows : list (list token)) :
  Forall (λ row, ctx `prefix_of` row) rows →
  (ctx ++.) <$> (drop (length ctx) <$> rows) = rows.
Proof.
  induction 1 as [|row rows [k ->] _ IH]; [done|].
  csimpl. by rewrite drop_app_length, IH.
Qed.

Lemma length_concat_uniform {X} (k : nat) (ls : list (list X)) :
  Forall (λ l, length l = k) ls → length (concat ls) = (length ls * k)%nat.
Proof.
  induction 1 as [|l ls Hl _ IH]; [done|].
  simpl. rewrite length_app, IH, Hl. lia.
Qed.

(** The trace of one served prompt, projected. *)
Lemma prompt_trace_projections (enc : Encoder) b ctx raw_text arrs :
  let t := EEncode raw_text :: rounds_events enc b ctx 0 arrs ++
           [EPrint closing_separator] in
  fed t = replicate (length arrs) (replicate b ctx) ∧
  returned t = arrs ∧
  decoded t = drop (length ctx) <$> concat arrs ∧
  (Forall (λ arr, length arr = b) arrs →
   printed t =
     concat (imap (λ i row, [sample_header (Z.of_nat i + 1); decode enc row])
               (drop (length ctx) <$> concat arrs)) ++ [closing_separator]).
Proof.
  intros t. subst t.
  change (EEncode raw_text :: ?l) with ([EEncode raw_text] ++ l).
  rewrite !fed_app, !returned_app, !decoded_app, !printed_app.
  rewrite fed_rounds, returned_rounds, decoded_rounds.
  split_and!; [simpl; by rewrite app_nil_r..|].
  intros Hall. rewrite (printed_rounds _ _ _ _ Hall). simpl. f_equal.
Qed.

End Rounds.

(** ** The construction of the session and the whole run *)

Section WholeRun.
Context `{fw : Framework}.

(** The four ways the construction of the session can go: the placeholder,
    the sampler or the restore raises, or the session is returned with the
    generators its seed gives it. *)
Lemma build_session_cases (model_name : string) (seed : option Z) (b : Z)
    (hp : gmap string Z) (len : Z) (temperature : float) (top_k : Z) (top_p : float)
    (dir : string) (amb : rngs) :
  let sample := ESampleSequence seed hp len b temperature top_k top_p in
  let build := build_session model_name seed b hp len temperature top_k top_p dir amb in
  build = ([ESession; EPlaceholder b], inl CollaboratorError) ∨
  (¬ np_seed_in_range seed ∧
   build = ([ESession; EPlaceholder b; ENpSeed seed], inl CollaboratorError)) ∨
  build = (seeding_events seed b ++ [sample], inl CollaboratorError) ∨
  build = (seeding_events seed b ++ sample :: restore_events model_name dir,
           inl CollaboratorError) ∨
  ∃ output wts,
    build = (seeding_events seed b ++ sample :: restore_events model_name dir,
             inr {| sess_output := output; sess_weights := wts;
                    sess_rngs := seeded_rngs seed amb |}).
Proof.
  intros sample build. subst build sample. unfold build_session. cbv zeta.
  destruct (tf_placeholder b) as [context|]; [|left; by run_step].
  run_step. right.
  destruct (np_random_seed seed amb _) as [w|] eqn:Hnp.
  2:{ left. split; [|by run_step]. destruct seed as [v|]; [|done]. simpl in *.
      by destruct (decide (0 ≤ v < 2 ^ 32)). }
  assert (Hw : np_state w = np_rng (seeded_rngs seed amb)).
  { destruct seed as [v|]; simpl in Hnp.
    - destruct (decide (0 ≤ v < 2 ^ 32)); [|done]. by injection Hnp as <-.
    - injection Hnp as <-. by destruct amb. }
  right. run_step.
  change (graph_seed (set_random_seed seed w)) with seed.
  change (np_state (set_random_seed seed w)) with (np_state w).
  destruct (sample_sequence seed hp len context b temperature top_k top_p)
    as [output|]; [|left; by run_step].
  run_step.
  destruct (saver_restore (latest_checkpoint (path_join dir [model_name])))
    as [wts|]; right; [right|left; by run_step].
  exists output, wts. run_step. unfold seeding_events, restore_events. simpl.
  do 3 f_equal. rewrite Hw. by destruct seed, amb.
Qed.

(** Every run of [interact_model] has one of seven shapes. *)
Lemma interact_model_cases (model_name : string) (seed : option Z) (nsamples : Z)
    (batch_size length : option Z) (temperature : float) (top_k : Z) (top_p : float)
    (models_dir : string) (amb : rngs) (stdin : list string) :
  let b := default 1 batch_size in
  let dir := expanduser (expandvars models_dir) in
  let loads := load_events model_name dir in
  let run := interact_model model_name seed nsamples batch_size length temperature
               top_k top_p models_dir amb stdin in
  run = ([], inl ZeroDivisionError) ∨
  run = ([], inl AssertionError) ∨
  run = (take 1 loads, inl CollaboratorError) ∨
  run = (loads, inl CollaboratorError) ∨
  (∃ hp, run = (loads, inl (window_error (n_ctx_of hp)))) ∨
  (∃ hp len bt,
     let sample := ESampleSequence seed hp len b temperature top_k top_p in
     run = (loads ++ bt, inl CollaboratorError) ∧
     (bt = [ESession; EPlaceholder b] ∨
      bt = [ESession; EPlaceholder b; ENpSeed seed] ∨
      bt = seeding_events seed b ++ [sample] ∨
      bt = seeding_events seed b ++ sample :: restore_events model_name dir)) ∨
  (∃ enc hp len s0,
     let sample := ESampleSequence seed hp len b temperature top_k top_p in
     run = prefixed (loads ++ seeding_events seed b ++
                     sample :: restore_events model_name dir)
             (serve enc nsamples b s0 stdin) ∧
     sess_rngs s0 = seeded_rngs seed amb).
Proof.
  intros b dir loads run. subst run. unfold interact_model. cbv zeta. fold b dir.
  destruct (check_batch_cases nsamples batch_size) as [[_ Hc]|[(_&_&Hc)|(_&_&Hc)]];
    fold b in Hc; rewrite Hc; [by left|by right; left|].
  rewrite mret_bind. do 2 right.
  destruct (load_model_metadata_cases model_name dir)
    as [Hl|[Hl|(enc & dict & _ & _ & Hl)]]; rewrite Hl;
    [by left|by right; left|].
  do 2 right. run_step. simpl. fold loads.
  set (hp := overlay default_hparams dict).
  assert (Hres : resolve_length length (n_ctx_of hp) = raise (window_error (n_ctx_of hp))
                 ∨ ∃ len, resolve_length length (n_ctx_of hp) = mret len).
  { destruct length as [l|]; [|right; by eexists].
    destruct (decide (l > n_ctx_of hp)).
    - left. by apply resolve_length_oversized.
    - right. exists l. apply resolve_length_fits. lia. }
  destruct Hres as [Hres|[len Hres]]; rewrite Hres.
  { left. exists hp. by run_step. }
  right. rewrite mret_bind.
  destruct (build_session_cases model_name seed b hp len temperature top_k top_p dir amb)
    as [Hb|[[_ Hb]|[Hb|[Hb|(output & wts & Hb)]]]]; rewrite Hb.
  - left. exists hp, len, [ESession; EPlaceholder b]. split; [by run_step|by left].
  - left. eexists hp, len, _. split; [by run_step|by right; left].
  - left. eexists hp, len, _. split; [by run_step|by right; right; left].
  - left. eexists hp, len, _. split; [by run_step|by right; right; right].
  - right. exists enc, hp, len, {| sess_output := output; sess_weights := wts;
                                   sess_rngs := seeded_rngs seed amb |}.
    run_step. split; reflexivity.
Qed.

(** C6.  An empty line makes the loop print the notice and ask again, in
    the same session: nothing is encoded, run, decoded or counted for it.
    What follows starts with a new request for input, and in no run is an
    empty text ever encoded. *)
Theorem empty_prompt_reprompts (model_name : string) (seed : option Z) (nsamples : Z)
    (batch_size length : option Z) (temperature : float) (top_k : Z) (top_p : float)
    (models_dir : string) (amb : rngs) (stdin : list string) :
  (∀ enc n b s rest,
     serve enc n b s ("" :: rest) =
       prefixed [EAsk; EPrint empty_notice] (serve enc n b s rest) ∧
     ∃ t, (serve enc n b s rest).1 = EAsk :: t) ∧
  (∀ raw_text,
     EEncode raw_text ∈ (interact_model model_name seed nsamples batch_size length
                           temperature top_k top_p models_dir amb stdin).1 →
     raw_text ≠ "").
Proof.
  split.
  - intros enc n b s rest. split; [apply serve_empty_line|].
    destruct rest as [|raw rest]; [by eexists|]. rewrite serve_cons, tell_bind. by eexists.
  - intros raw_text Hin.
    destruct (interact_model_cases model_name seed nsamples batch_size length temperature
                top_k top_p models_dir amb stdin)
      as [H|[H|[H|[H|[[hp H]|[(hp&len&bt&H&Hbt)|(enc&hp&len&s0&H&_)]]]]]];
      rewrite H in Hin; try destruct Hbt as [-> | [-> | [-> | ->]]]; simpl in Hin;
      repeat (apply elem_of_cons in Hin as [Heq|Hin]; [discriminate Heq|]);
      try (by apply elem_of_nil in Hin).
    destruct (serve_confined enc nsamples (default 1 batch_size) s0 stdin) as [Hev _].
    by apply (proj1 (Forall_forall _ _) Hev) in Hin.
Qed.

(** C10.  With a sample count of zero and a positive batch size the check
    of line 48 passes, and a non-empty prompt is encoded and answered by the
    closing separator alone: no round is run, nothing is decoded, no sample
    header is printed, and the loop goes on in the same session. *)
Theorem zero_samples_only_separator (enc : Encoder) (batch_size : option Z)
    (s : session) (raw_text : string) (stdin : list string) :
  0 < default 1 batch_size → raw_text ≠ "" →
  check_batch 0 batch_size = mret (default 1 batch_size) ∧
  serve enc 0 (default 1 batch_size) s (raw_text :: stdin) =
    prefixed [EAsk; EEncode raw_text; EPrint closing_separator]
      (serve enc 0 (default 1 batch_size) s stdin).
Proof.
  intros Hb Hraw. split.
  - apply check_batch_passes; [lia|]. apply Zmod_0_l.
  - rewrite (serve_prompt_line _ _ _ _ _ _ Hraw). unfold serve_prompt.
    rewrite Zdiv_0_l. change (Z.to_nat 0) with 0%nat.
    change (generate_rounds enc (default 1 batch_size) (encode enc raw_text) 0 s 0)
      with (mret (0, s) : M (Z * session)).
    by run_step.
Qed.

End WholeRun.

(** ** Seeding, and where configuration errors are detected *)

Section Order.
Context `{fw : Framework}.

Lemma no_split_without {X} (P : X → Prop) (l pre post : list X) (y : X) :
  Forall (λ x, ¬ P x) l → P y → l ≠ pre ++ y :: post.
Proof.
  intros Hl Hy ->. apply Forall_app in Hl as [_ Hl].
  apply Forall_cons in Hl as [Hny _]. by apply Hny.
Qed.

Lemma split_at_only {X} (P : X → Prop) (l1 l2 pre post : list X) (x y : X) :
  Forall (λ x, ¬ P x) l1 → Forall (λ x, ¬ P x) l2 → P y →
  l1 ++ x :: l2 = pre ++ y :: post → pre = l1 ∧ y = x.
Proof.
  revert pre. induction l1 as [|a l1 IH]; intros pre Hl1 Hl2 Hy Heq.
  - destruct pre as [|b pre]; simpl in Heq.
    + by injection Heq as -> _.
    + injection Heq as -> Heq. by destruct (no_split_without P l2 pre post y).
  - apply Forall_cons in Hl1 as [Ha Hl1]. destruct pre as [|b pre]; simpl in Heq.
    + injection Heq as -> _. by destruct Ha.
    + injection Heq as -> Heq. by destruct (IH pre Hl1 Hl2 Hy Heq) as [-> ->].
Qed.

Lemma loop_event_not_sampler (ev : event) : loop_event ev → ¬ is_sampler_event ev.
Proof. destruct ev; simpl; tauto. Qed.

(** C8.  In every run, an event of construction of the sampling graph is
    preceded by the seeding of numpy's generator and of the graph with the
    seed of the configuration, and by no other construction of a sampler; it
    is built in a graph that has that seed.  A session that is constructed
    draws from generators fixed by the seed when there is one, and from the
    entropy of the run when there is none. *)
Theorem generators_seeded_before_sampler (model_name : string) (seed : option Z)
    (nsamples : Z) (batch_size length : option Z) (temperature : float) (top_k : Z)
    (top_p : float) (models_dir : string) (amb : rngs) (stdin : list string) :
  let run := interact_model model_name seed nsamples batch_size length temperature
               top_k top_p models_dir amb stdin in
  (∀ pre ev post,
     run.1 = pre ++ ev :: post → is_sampler_event ev →
     ENpSeed seed ∈ pre ∧ ETfSeed seed ∈ pre ∧
     Forall (λ e, ¬ is_sampler_event e) pre ∧
     ∃ hp len b, ev = ESampleSequence seed hp len b temperature top_k top_p) ∧
  (∀ b hp len dir t s0,
     build_session model_name seed b hp len temperature top_k top_p dir amb
       = (t, inr s0) →
     sess_rngs s0 = match seed with
                    | Some v => {| np_rng := generator_of_seed v;
                                   tf_rng := generator_of_seed v |}
                    | None => amb
                    end).
Proof.
  intros run. split.
  - intros pre ev post Hsplit Hev.
    set (b := default 1 batch_size) in *.
    set (dir := expanduser (expandvars models_dir)) in *.
    assert (Hfound : ∀ hp len rest,
              Forall (λ e, ¬ is_sampler_event e) rest →
              run.1 = (load_events model_name dir ++ seeding_events seed b) ++
                      ESampleSequence seed hp len b temperature top_k top_p :: rest →
              ENpSeed seed ∈ pre ∧ ETfSeed seed ∈ pre ∧
              Forall (λ e, ¬ is_sampler_event e) pre ∧
              ∃ hp len b, ev = ESampleSequence seed hp len b temperature top_k top_p).
    { intros hp len rest Hrest Hrun. rewrite Hrun in Hsplit.
      assert (Hpre : Forall (λ e, ¬ is_sampler_event e)
                       (load_events model_name dir ++ seeding_events seed b)).
      { repeat constructor; by intros []. }
      destruct (split_at_only is_sampler_event _ _ _ _ _ _ Hpre Hrest Hev Hsplit)
        as [-> ->].
      split_and!; [| |done|by eexists _, _, _].
      - apply elem_of_app; right. unfold seeding_events. set_solver.
      - apply elem_of_app; right. unfold seeding_events. set_solver. }
    assert (Hnone : Forall (λ e, ¬ is_sampler_event e) run.1 → False).
    { intros Hall. by apply (no_split_without is_sampler_event run.1 pre post ev Hall Hev). }
    destruct (interact_model_cases model_name seed nsamples batch_size length temperature
                top_k top_p models_dir amb stdin)
      as [H|[H|[H|[H|[[hp H]|[(hp&len&bt&H&Hbt)|(enc&hp&len&s0&H&_)]]]]]];
      fold run b dir in H.
    1-5: destruct Hnone; rewrite H; repeat constructor; by intros [].
    + destruct Hbt as [-> | [-> | [-> | ->]]].
      * destruct Hnone; rewrite H; repeat constructor; by intros [].
      * destruct Hnone; rewrite H; repeat constructor; by intros [].
      * apply (Hfound hp len []); [constructor|]. by rewrite H.
      * apply (Hfound hp len (restore_events model_name dir)).
        { repeat constructor; by intros []. }
        by rewrite H.
    + apply (Hfound hp len (restore_events model_name dir ++
                            (serve enc nsamples b s0 stdin).1)).
      { apply Forall_app. split; [repeat constructor; by intros []|].
        destruct (serve_confined enc nsamples b s0 stdin) as [Hloop _].
        eapply Forall_impl; [exact Hloop|]. apply loop_event_not_sampler. }
      by rewrite H.
  - intros b hp len dir t s0 Hbuild.
    destruct (build_session_cases model_name seed b hp len temperature top_k top_p dir amb)
      as [Hb|[[_ Hb]|[Hb|[Hb|(output & wts & Hb)]]]]; rewrite Hb in Hbuild;
      try discriminate.
    by injection Hbuild as _ <-.
Qed.

(** C9, as the code has it.  A run that ends in the failure of the batch
    check (the assertion, or the division by zero in it) has an empty trace:
    nothing was loaded.  A run that ends in the ValueError of the length
    check has exactly the three load events for trace: the encoder and the
    hyperparameters were loaded before the check, and no session, sampler
    or checkpoint was touched. *)
Theorem configuration_errors_and_loads (model_name : string) (seed : option Z)
    (nsamples : Z) (batch_size length : option Z) (temperature : float) (top_k : Z)
    (top_p : float) (models_dir : string) (amb : rngs) (stdin : list string) :
  let dir := expanduser (expandvars models_dir) in
  let run := interact_model model_name seed nsamples batch_size length temperature
               top_k top_p models_dir amb stdin in
  (run.2 = inl ZeroDivisionError ∨ run.2 = inl AssertionError → run.1 = []) ∧
  (∀ msg, run.2 = inl (ValueError msg) →
     run.1 = [EGetEncoder model_name dir; EDefaultHparams;
              EOpenHparams (path_join dir [model_name; "hparams.json"])]).
Proof.
  intros dir run.
  destruct (interact_model_cases model_name seed nsamples batch_size length temperature
              top_k top_p models_dir amb stdin)
    as [H|[H|[H|[H|[[hp H]|[(hp&len&bt&H&Hbt)|(enc&hp&len&s0&H&_)]]]]]];
    fold run dir in H; rewrite H; simpl.
  1-6: split; [intros [Hr|Hr]|intros msg Hr]; done.
  destruct (serve_confined enc nsamples (default 1 batch_size) s0 stdin) as [_ Hexn].
  split; [intros [Hr|Hr]|intros msg Hr];
    by destruct (Hexn _ Hr) as [?|[?|?]].
Qed.

End Order.

(** ** The overlay of the metadata on the default hyperparameters *)

Section Overlay.
Context `{fw : Framework}.

Lemma overlay_cons (hp : gmap string Z) (k : string) (v : Z) (dict : list (string * Z)) :
  overlay hp ((k, v) :: dict) = overlay (<[k := v]> hp) dict.
Proof. reflexivity. Qed.

Lemma overlay_lookup_other (dict : list (string * Z)) :
  ∀ (hp : gmap string Z) (k : string), k ∉ dict.*1 → overlay hp dict !! k = hp !! k.
Proof.
  induction dict as [|[k' v'] dict IH]; intros hp k Hk; [done|].
  rewrite overlay_cons. rewrite fmap_cons in Hk.
  apply not_elem_of_cons in Hk as [Hne Hk]. simpl in Hne.
  rewrite (IH _ _ Hk). by apply lookup_insert_ne.
Qed.

Lemma overlay_lookup_item (dict : list (string * Z)) :
  ∀ (hp : gmap string Z) (k : string) (v : Z),
    NoDup dict.*1 → (k, v) ∈ dict → overlay hp dict !! k = Some v.
Proof.
  induction dict as [|[k' v'] dict IH]; intros hp k v Hnd Hin.
  - by apply elem_of_nil in Hin.
  - rewrite fmap_cons in Hnd. apply NoDup_cons in Hnd as [Hfresh Hnd].
    rewrite overlay_cons. apply elem_of_cons in Hin as [[= -> ->]|Hin].
    + rewrite (overlay_lookup_other _ _ _ Hfresh). apply lookup_insert_eq.
    + by apply IH.
Qed.

(** C7.  When the encoder and the metadata file load, the hyperparameters
    of the run are the defaults overlaid with the metadata: every key of the
    metadata has the value of the metadata, whether the defaults had it or
    not, every other attribute keeps its default, and the window read from
    the result is its [n_ctx], or 1024 when it has none. *)
Theorem metadata_overrides_defaults (model_name dir : string) (enc : Encoder)
    (dict : list (string * Z)) :
  get_encoder model_name dir = Some enc →
  json_load (path_join dir [model_name; "hparams.json"]) = Some dict →
  NoDup dict.*1 →
  ∃ hp,
    load_model_metadata model_name dir = (load_events model_name dir, inr (enc, hp)) ∧
    (∀ k v, (k, v) ∈ dict → hp !! k = Some v) ∧
    (∀ k, k ∉ dict.*1 → hp !! k = default_hparams !! k) ∧
    (hp !! "n_ctx" = None → n_ctx_of hp = 1024) ∧
    (∀ w, hp !! "n_ctx" = Some w → n_ctx_of hp = w).
Proof.
  intros Henc Hjson Hnd. exists (overlay default_hparams dict). split_and!.
  - by apply load_model_metadata_ok.
  - intros k v Hin. by apply overlay_lookup_item.
  - intros k Hk. by apply overlay_lookup_other.
  - intros Hnone. unfold n_ctx_of. by rewrite Hnone.
  - intros w Hw. unfold n_ctx_of. by rewrite Hw.
Qed.

End Overlay.

(** ** The small framework: examples, witnesses and a counterexample *)

#[local] Existing Instance Demo.demo_fw.

(** The scenario of four samples in batches of two: two rounds, and the
    lines printed carry the ordinals 1, 2, 3, 4 in that order. *)
Example four_samples_in_two_rounds :
  let t := (serve Demo.demo_encoder 4 2 Demo.demo_session ["Hi"]).1 in
  fed t = [[[72; 105]; [72; 105]]; [[72; 105]; [72; 105]]] ∧
  printed t =
    ["======================================== SAMPLE 1 ========================================";
     "AAA";
     "======================================== SAMPLE 2 ========================================";
     "AAA";
     "======================================== SAMPLE 3 ========================================";
     "BBB";
     "======================================== SAMPLE 4 ========================================";
     "BBB";
     "================================================================================"].
Proof. vm_compute. split; reflexivity. Qed.

(** Two prompts of two samples each: the ordinals of the second prompt
    start again at 1. *)
Example ordinals_start_again_for_next_prompt :
  printed (serve Demo.demo_encoder 2 1 Demo.demo_session ["Hi"; "Yo"]).1 =
    ["======================================== SAMPLE 1 ========================================";
     "AAA";
     "======================================== SAMPLE 2 ========================================";
     "BBB";
     "================================================================================";
     "======================================== SAMPLE 1 ========================================";
     "CCC";
     "======================================== SAMPLE 2 ========================================";
     "DDD";
     "================================================================================"].
Proof. vm_compute. reflexivity. Qed.

(** Without a seed the output follows the entropy of the run. *)
Example unseeded_runs_can_differ :
  printed (interact_model (fw := Demo.demo_fw) "124M" None 1 None (Some 3) 1 0 1
             "models" Demo.amb1 ["Hi"]).1 !! 1%nat = Some "AAA" ∧
  printed (interact_model (fw := Demo.demo_fw) "124M" None 1 None (Some 3) 1 0 1
             "models" Demo.amb2 ["Hi"]).1 !! 1%nat = Some "BBB".
Proof. vm_compute. split; reflexivity. Qed.

(** Witness of C6: an empty line, then "Hi". *)
Lemma empty_prompt_reprompts_witness :
  serve Demo.demo_encoder 1 1 Demo.demo_session [""; "Hi"] =
    prefixed [EAsk; EPrint empty_notice]
      (serve Demo.demo_encoder 1 1 Demo.demo_session ["Hi"]) ∧
  "Hi" ≠ "".
Proof.
  destruct (empty_prompt_reprompts (fw := Demo.demo_fw) "124M" None 1 None (Some 3)
              1 0 1 "models" Demo.amb1 [""; "Hi"]) as [Hloop Hrun].
  split.
  - exact (proj1 (Hloop Demo.demo_encoder 1 1 Demo.demo_session ["Hi"])).
  - apply Hrun. apply list_elem_of_lookup. exists 14%nat. reflexivity.
Defined.

(** Witness of C7: metadata that adds an attribute, and no [n_ctx]
    anywhere. *)
Lemma metadata_overrides_defaults_witness :
  ∃ hp : gmap string Z,
    load_model_metadata (fw := Demo.bare_fw) "124M" "models" =
      (load_events (fw := Demo.bare_fw) "124M" "models",
       inr (Demo.demo_encoder, hp)) ∧
    hp !! "n_extra" = Some 7 ∧ n_ctx_of hp = 1024.
Proof.
  destruct (metadata_overrides_defaults (fw := Demo.bare_fw) "124M" "models"
              Demo.demo_encoder Demo.bare_metadata)
    as (hp & Hload & Hitem & Hother & Hnone & _);
    [reflexivity | reflexivity | vm_compute; repeat constructor; set_solver |].
  exists hp. split_and!; [exact Hload| |].
  - apply Hitem. vm_compute. constructor.
  - apply Hnone. rewrite Hother; [reflexivity|].
    vm_compute. intros Hin. apply list_elem_of_singleton in Hin. discriminate.
Defined.

(** Witness of C8: a run seeded with 70. *)
Lemma generators_seeded_before_sampler_witness :
  let pre := [EGetEncoder "124M" "models"; EDefaultHparams;
              EOpenHparams "models/124M/hparams.json"; ESession; EPlaceholder 1;
              ENpSeed (Some 70); ETfSeed (Some 70)] in
  (ENpSeed (Some 70) ∈ pre ∧ ETfSeed (Some 70) ∈ pre) ∧
  sess_rngs (@Build_session Demo.demo_fw 3 tt (@Build_rngs Demo.demo_fw 70 70)) =
  @Build_rngs Demo.demo_fw 70 70.
Proof.
  intros pre.
  destruct (generators_seeded_before_sampler (fw := Demo.demo_fw) "124M" (Some 70) 1
              None (Some 3) 1 0 1 "models" Demo.amb1 []) as [Horder Hstate].
  split.
  - destruct (Horder pre
                (ESampleSequence (fw := Demo.demo_fw) (Some 70)
                   (overlay Demo.demo_default_hparams Demo.demo_metadata) 3 1 1 0 1)
                [ESaver; ELatestCheckpoint "models/124M"; ERestore; EAsk])
      as (Hnp & Htf & _); [reflexivity | exact I |].
    by split.
  - apply (Hstate 1 ∅ 3 "models"
             (seeding_events (Some 70) 1 ++
              ESampleSequence (fw := Demo.demo_fw) (Some 70) ∅ 3 1 1 0 1 ::
              restore_events "124M" "models")).
    reflexivity.
Defined.

(** C9 as the specification states it fails: the run of the small framework
    with a length of 2000 ends in the configuration error of the length
    check, and the encoder and the hyperparameters were loaded before it. *)
Lemma oversized_length_detected_after_loads :
  let run := interact_model (fw := Demo.demo_fw) "124M" None 1 None (Some 2000) 1 0 1
               "models" Demo.amb1 [] in
  run.2 = inl (ValueError "Can't get samples longer than window size: 1024") ∧
  EGetEncoder "124M" "models" ∈ run.1 ∧
  EOpenHparams "models/124M/hparams.json" ∈ run.1 ∧
  ¬ (run.1 = []).
Proof.
  intros run.
  assert (Hrun : run = ([EGetEncoder "124M" "models"; EDefaultHparams;
                         EOpenHparams "models/124M/hparams.json"],
                        inl (ValueError "Can't get samples longer than window size: 1024"))).
  { reflexivity. }
  rewrite Hrun. simpl.
  split_and!; [reflexivity | | | discriminate].
  - apply list_elem_of_lookup. by exists 0%nat.
  - apply list_elem_of_lookup. by exists 2%nat.
Qed.

(** Witness of C9 as the code has it: a refused batch ratio and a refused
    length. *)
Lemma configuration_errors_and_loads_witness :
  (interact_model (fw := Demo.demo_fw) "124M" None 3 (Some 2) None 1 0 1 "models"
     Demo.amb1 []).1 = [] ∧
  (interact_model (fw := Demo.demo_fw) "124M" None 1 None (Some 2000) 1 0 1 "models"
     Demo.amb1 []).1 =
  [EGetEncoder "124M" "models"; EDefaultHparams;
   EOpenHparams "models/124M/hparams.json"].
Proof.
  split.
  - apply (configuration_errors_and_loads (fw := Demo.demo_fw) "124M" None 3 (Some 2)
             None 1 0 1 "models" Demo.amb1 []).
    right. reflexivity.
  - apply (proj2 (configuration_errors_and_loads (fw := Demo.demo_fw) "124M" None 1 None
                    (Some 2000) 1 0 1 "models" Demo.amb1 [])
             "Can't get samples longer than window size: 1024").
    reflexivity.
Defined.

(** Witness of C10: no samples, batches of two, the prompt "Hi". *)
Lemma zero_samples_only_separator_witness :
  check_batch (fw := Demo.demo_fw) 0 (Some 2) = mret 2 ∧
  serve Demo.demo_encoder 0 2 Demo.demo_session ["Hi"] =
    prefixed [EAsk; EEncode "Hi"; EPrint closing_separator]
      (serve Demo.demo_encoder 0 2 Demo.demo_session []).
Proof.
  apply (zero_samples_only_separator (fw := Demo.demo_fw) Demo.demo_encoder (Some 2)
           Demo.demo_session "Hi" []); [simpl; lia | discriminate].
Defined.

(** ** The inner loops, whatever the engine returns *)

Section AnyEngine.
Context `{fw : Framework}.

Lemma report_from (enc : Encoder) (out : list (list token)) (k : nat) :
  ∀ (start : nat) (generated : Z), (start ≤ length out)%nat →
    report enc out (seq start k) generated =
    (samples_events enc generated (take k (drop start out)),
     if decide (start + k ≤ length out)%nat then inr (generated + Z.of_nat k)
     else inl IndexError).
Proof.
  unfold samples_events.
  induction k as [|k IH]; intros start generated Hstart.
  - simpl. rewrite decide_True by lia. by rewrite Z.add_0_r.
  - simpl seq. rewrite report_cons.
    destruct (decide (start < length out)%nat) as [Hlt|Hge].
    + destruct (lookup_lt_is_Some_2 out start Hlt) as [row Hrow].
      rewrite Hrow. run_step.
      rewrite (IH (S start) (generated + 1)) by lia.
      rewrite prefixed_pair, (drop_S _ _ _ Hrow). simpl.
      replace (generated + Z.of_nat 0 + 1) with (generated + 1) by lia.
      f_equal.
      * do 4 f_equal. apply imap_ext. intros i x _. simpl. f_equal. lia.
      * repeat case_decide; try lia; [|done]. f_equal. lia.
    + rewrite lookup_ge_None_2 by lia. rewrite drop_ge by lia.
      rewrite decide_False by lia. by rewrite take_nil.
Qed.

(** X10.  The inner loop of lines 94-98 on an array of any height.  The rows
    shown are the first [batch_size] rows of the array, numbered from
    [generated + 1]; rows beyond the batch are ignored; an array with
    fewer rows than the batch ends in IndexError after the rows it has were
    shown. *)
Theorem report_bounds (enc : Encoder) (out : list (list token)) (b : nat)
    (generated : Z) :
  report enc out (seq 0 b) generated =
  (samples_events enc generated (take b out),
   if decide (b ≤ length out)%nat then inr (generated + Z.of_nat b)
   else inl IndexError).
Proof. rewrite report_from by lia. by rewrite drop_0. Qed.

(** One round, by what the engine does: it raises, it returns too few
    rows, or it returns enough of them and the next round follows. *)
Lemma generate_rounds_step (enc : Encoder) (b : Z) (ctx : list token) (k : nat)
    (s : session) (g : Z) :
  let feed := replicate (Z.to_nat b) ctx in
  match sess_run_step (sess_output s) (sess_weights s)
          (np_rng (sess_rngs s), tf_rng (sess_rngs s)) feed with
  | None => generate_rounds enc b ctx (S k) s g = ([ERun feed], inl CollaboratorError)
  | Some res =>
      let rows := drop (length ctx) <$> res.1 in
      let s1 := {| sess_output := sess_output s; sess_weights := sess_weights s;
                   sess_rngs := {| np_rng := res.2.1; tf_rng := res.2.2 |} |} in
      generate_rounds enc b ctx (S k) s g =
        if decide (Z.to_nat b ≤ length res.1)%nat then
          prefixed (ERun feed :: EReturned res.1 ::
                    samples_events enc g (take (Z.to_nat b) rows))
            (generate_rounds enc b ctx k s1 (g + Z.of_nat (Z.to_nat b)))
        else (ERun feed :: EReturned res.1 :: samples_events enc g rows, inl IndexError)
  end.
Proof.
  intros feed. rewrite generate_rounds_S. unfold sess_run. fold feed.
  destruct (sess_run_step _ _ _ feed) as [res|]; [|by run_step].
  run_step. simpl. rewrite report_from by lia. rewrite drop_0, length_fmap.
  repeat case_decide; try lia.
  - by run_step.
  - run_step. by rewrite take_ge by (rewrite length_fmap; lia).
Qed.

Lemma rounds_at_least_one (n b : Z) :
  0 < n `div` b → ∃ k, Z.to_nat (n `div` b) = S k.
Proof. intros Hpos. exists (Z.to_nat (n `div` b) - 1)%nat. lia. Qed.

(** X11.  Lines 90-96 when the engine returns fewer sequences than the batch
    has slots.  The sequences it returned are decoded and printed, numbered
    from 1; then indexing the missing row raises IndexError: no separator is
    printed and the remaining lines of the input are never read. *)
Theorem short_batch_ends_in_index_error (enc : Encoder) (nsamples batch_size : Z)
    (s : session) (raw_text : string) (stdin : list string)
    (out : list (list token)) (r' : generator * generator) :
  raw_text ≠ "" → 0 < nsamples `div` batch_size →
  sess_run_step (sess_output s) (sess_weights s)
    (np_rng (sess_rngs s), tf_rng (sess_rngs s))
    (replicate (Z.to_nat batch_size) (encode enc raw_text)) = Some (out, r') →
  (length out < Z.to_nat batch_size)%nat →
  serve enc nsamples batch_size s (raw_text :: stdin) =
    (EAsk :: EEncode raw_text ::
     ERun (replicate (Z.to_nat batch_size) (encode enc raw_text)) :: EReturned out ::
     samples_events enc 0 (drop (length (encode enc raw_text)) <$> out),
     inl IndexError).
Proof.
  intros Hraw Hpos Hstep Hshort.
  destruct (rounds_at_least_one _ _ Hpos) as [k Hk].
  rewrite (serve_prompt_line _ _ _ _ _ _ Hraw). unfold serve_prompt. rewrite Hk.
  pose proof (generate_rounds_step enc batch_size (encode enc raw_text) k s 0) as Hgen.
  cbv zeta in Hgen. rewrite Hstep in Hgen. cbn [fst snd] in Hgen.
  rewrite decide_False in Hgen by lia. rewrite Hgen. by run_step.
Qed.

(** X12.  Lines 90-93 when the engine raises.  The exception ends the loop at
    once: nothing is decoded or printed for the prompt, not even the
    separator, and the remaining lines of the input are never read. *)
Theorem engine_failure_ends_loop (enc : Encoder) (nsamples batch_size : Z)
    (s : session) (raw_text : string) (stdin : list string) :
  raw_text ≠ "" → 0 < nsamples `div` batch_size →
  sess_run_step (sess_output s) (sess_weights s)
    (np_rng (sess_rngs s), tf_rng (sess_rngs s))
    (replicate (Z.to_nat batch_size) (encode enc raw_text)) = None →
  serve enc nsamples batch_size s (raw_text :: stdin) =
    ([EAsk; EEncode raw_text;
      ERun (replicate (Z.to_nat batch_size) (encode enc raw_text))],
     inl CollaboratorError).
Proof.
  intros Hraw Hpos Hstep.
  destruct (rounds_at_least_one _ _ Hpos) as [k Hk].
  rewrite (serve_prompt_line _ _ _ _ _ _ Hraw). unfold serve_prompt. rewrite Hk.
  pose proof (generate_rounds_step enc batch_size (encode enc raw_text) k s 0) as Hgen.
  cbv zeta in Hgen. rewrite Hstep in Hgen. rewrite Hgen. by run_step.
Qed.

Lemma encoded_app (t1 t2 : list event) : encoded (t1 ++ t2) = encoded t1 ++ encoded t2.
Proof. apply omap_app. Qed.

Lemma asked_app (t1 t2 : list event) : asked (t1 ++ t2) = (asked t1 + asked t2)%nat.
Proof. unfold asked. by rewrite omap_app, length_app. Qed.

Lemma samples_projections (enc : Encoder) (g : Z) (rows : list (list token)) :
  printed (samples_events enc g rows) = samples_lines enc g rows ∧
  decoded (samples_events enc g rows) = rows ∧
  fed (samples_events enc g rows) = [] ∧
  returned (samples_events enc g rows) = [] ∧
  encoded (samples_events enc g rows) = [] ∧
  asked (samples_events enc g rows) = 0%nat.
Proof.
  unfold printed, decoded, fed, returned, encoded, asked, samples_events, samples_lines.
  rewrite !omap_concat_imap. simpl.
  rewrite !concat_imap_nil, concat_imap_singleton.
  split_and!; try done. by rewrite list_fmap_id.
Qed.

Lemma samples_lines_app (enc : Encoder) (g : Z) (rows1 rows2 : list (list token)) :
  samples_lines enc g (rows1 ++ rows2) =
  samples_lines enc g rows1 ++ samples_lines enc (g + Z.of_nat (length rows1)) rows2.
Proof.
  unfold samples_lines. rewrite imap_app, concat_app. do 2 f_equal.
  apply imap_ext. intros i row _. simpl. do 2 f_equal. lia.
Qed.

(** What the rounds of a prompt show, whatever the engine does. *)
Lemma generate_rounds_any (enc : Encoder) (b : Z) (ctx : list token) (k : nat) :
  ∀ (s : session) (g : Z),
    let m := generate_rounds enc b ctx k s g in
    printed m.1 = samples_lines enc g (decoded m.1) ∧
    (∀ e, m.2 = inl e → e = IndexError ∨ e = CollaboratorError) ∧
    (∀ res, m.2 = inr res → res.1 = g + Z.of_nat (length (decoded m.1))) ∧
    Forall (λ feed, feed = replicate (Z.to_nat b) ctx) (fed m.1) ∧
    (length (fed m.1) ≤ k)%nat ∧
    Forall (λ row, ∃ out r, out ∈ returned m.1 ∧ r ∈ out ∧
                            row = drop (length ctx) r) (decoded m.1) ∧
    encoded m.1 = [] ∧ asked m.1 = 0%nat.
Proof.
  induction k as [|k IH]; intros s g m; subst m.
  - simpl. split_and!; try done; try by constructor.
    intros res [= <-]. simpl. lia.
  - pose proof (generate_rounds_step enc b ctx k s g) as Hstep. cbv zeta in Hstep.
    destruct (sess_run_step _ _ _ _) as [res|].
    2:{ rewrite Hstep. simpl. split_and!; try done; try by repeat constructor.
        - intros e [= <-]. by right.
        - lia. }
    set (rows := drop (length ctx) <$> res.1) in *.
    destruct (samples_projections enc g rows) as (Hp & Hd & Hf & Hr & He & Ha).
    destruct (samples_projections enc g (take (Z.to_nat b) rows))
      as (Hp' & Hd' & Hf' & Hr' & He' & Ha').
    assert (Hfrom : ∀ l, l ⊆ rows →
              Forall (λ row, ∃ out r, out ∈ [res.1] ∧ r ∈ out ∧
                                      row = drop (length ctx) r) l).
    { intros l Hl. apply Forall_forall. intros row Hrow.
      assert (Hin : row ∈ rows) by by apply Hl.
      subst rows. apply list_elem_of_fmap in Hin as (r & -> & Hr0).
      exists res.1, r. split_and!; [by constructor|done..]. }
    case_decide as Hlen; rewrite Hstep.
    + destruct (IH {| sess_output := sess_output s; sess_weights := sess_weights s;
                      sess_rngs := {| np_rng := res.2.1; tf_rng := res.2.2 |} |}
                  (g + Z.of_nat (Z.to_nat b)))
        as (IHp & IHe & IHg & IHf & IHk & IHd & IHenc & IHa).
      set (m' := generate_rounds enc b ctx k _ _) in *.
      assert (Hlt : length (take (Z.to_nat b) rows) = Z.to_nat b).
      { rewrite length_take. subst rows. rewrite length_fmap. lia. }
      unfold prefixed. simpl fst. simpl snd.
      change (?a :: ?b :: ?l ++ m'.1) with ([a; b] ++ l ++ m'.1).
      rewrite !printed_app, !decoded_app, !fed_app, !returned_app, !encoded_app,
        !asked_app.
      rewrite Hp', Hd', Hf', Hr', He', Ha', IHenc, IHa. simpl.
      split_and!; try done.
      * by rewrite samples_lines_app, Hlt, IHp.
      * intros res' Hres'. rewrite (IHg _ Hres'), length_app, Hlt. lia.
      * by constructor.
      * lia.
      * apply Forall_app. split.
        -- eapply Forall_impl; [apply Hfrom, subseteq_take|].
           intros row (out & r & Hout & Hr0 & ->). exists out, r.
           split_and!; [|done..]. apply elem_of_cons. left.
           by apply list_elem_of_singleton in Hout.
        -- eapply Forall_impl; [exact IHd|].
           intros row (out & r & Hout & Hr0 & ->). exists out, r.
           split_and!; [|done..]. by apply elem_of_cons; right.
    + simpl fst. simpl snd.
      change (?a :: ?b :: ?l) with ([a; b] ++ l).
      rewrite !printed_app, !decoded_app, !fed_app, !returned_app, !encoded_app,
        !asked_app.
      rewrite Hp, Hd, Hf, Hr, He, Ha. simpl.
      split_and!; try done.
      * intros e [= <-]. by left.
      * by constructor.
      * lia.
      * by apply Hfrom.
Qed.

(** X9.  What is shown for a prompt, whatever the engine does (lines
    87-99).  The lines printed are, for the sequences decoded, the header
    and the text of completions 1, 2, ... without a gap, followed by the
    closing separator exactly when the prompt is served to the end.  Every
    batch fed is [batch_size] copies of the encoded prompt, at most
    [nsamples // batch_size] batches are fed, every sequence decoded is a
    returned sequence without its first [len(context_tokens)] tokens, and
    the prompt is encoded once.  The only exceptions are IndexError and
    those of the engine. *)
Theorem prompt_display_invariant (enc : Encoder) (nsamples batch_size : Z)
    (s : session) (raw_text : string) :
  let context_tokens := encode enc raw_text in
  let m := serve_prompt enc nsamples batch_size s raw_text in
  printed m.1 =
    samples_lines enc 0 (decoded m.1) ++
    match m.2 with inr _ => [closing_separator] | inl _ => [] end ∧
  (∀ e, m.2 = inl e → e = IndexError ∨ e = CollaboratorError) ∧
  Forall (λ feed, feed = replicate (Z.to_nat batch_size) context_tokens) (fed m.1) ∧
  (length (fed m.1) ≤ Z.to_nat (nsamples `div` batch_size))%nat ∧
  Forall (λ row, ∃ out r, out ∈ returned m.1 ∧ r ∈ out ∧
                          row = drop (length context_tokens) r) (decoded m.1) ∧
  encoded m.1 = [raw_text].
Proof.
  intros ctx m. subst m. unfold serve_prompt. fold ctx.
  destruct (generate_rounds_any enc batch_size ctx
              (Z.to_nat (nsamples `div` batch_size)) s 0)
    as (Hp & He & _ & Hf & Hk & Hd & Henc & _).
  set (m' := generate_rounds enc batch_size ctx _ s 0) in *.
  rewrite tell_bind.
  destruct m' as [t [e|res]] eqn:Hm'; simpl in *.
  - rewrite app_nil_r, Henc. split_and!; try done.
    intros e0 [= <-]. by apply He.
  - run_step. simpl.
    rewrite !printed_app, !decoded_app, !fed_app, !returned_app, !encoded_app.
    simpl. rewrite !app_nil_r, Henc, Hp. by split_and!.
Qed.

End AnyEngine.

(** ** The loop over the whole input *)

Section WholeInput.
Context `{fw : Framework}.

Lemma prefixed_nil_l {A} (m : M A) : prefixed [] m = m.
Proof. by destruct m. Qed.

Lemma exn_bind {A B} (t : list event) (e : exn) (f : A → M B) :
  ((t, inl e) : M A) ≫= f = (t, inl e).
Proof. reflexivity. Qed.

Lemma serve_prompt_exn (enc : Encoder) (n b : Z) (s : session) (raw_text : string) e :
  (serve_prompt enc n b s raw_text).2 = inl e → e = IndexError ∨ e = CollaboratorError.
Proof.
  unfold serve_prompt. rewrite tell_bind.
  destruct (generate_rounds_any enc b (encode enc raw_text) (Z.to_nat (n `div` b)) s 0)
    as (_ & He & _).
  destruct (generate_rounds _ _ _ _ s 0) as [t [e'|res]]; simpl in *.
  - intros [= <-]. by apply He.
  - run_step. simpl. discriminate.
Qed.

Lemma serve_prompt_asks_nothing (enc : Encoder) (n b : Z) (s : session)
    (raw_text : string) :
  encoded (serve_prompt enc n b s raw_text).1 = [raw_text] ∧
  asked (serve_prompt enc n b s raw_text).1 = 0%nat.
Proof.
  unfold serve_prompt. rewrite tell_bind.
  destruct (generate_rounds_any enc b (encode enc raw_text) (Z.to_nat (n `div` b)) s 0)
    as (_ & _ & _ & _ & _ & _ & Henc & Ha).
  destruct (generate_rounds _ _ _ _ s 0) as [t [e'|res]]; cbn [fst snd] in *.
  - rewrite exn_bind. unfold prefixed. cbn [fst snd].
    by rewrite encoded_app, asked_app, Henc, Ha.
  - run_step. cbn [fst snd]. by rewrite !encoded_app, !asked_app, Henc, Ha.
Qed.

(** X8.  The loop is served line by line (lines 82-99).  If the lines [l1]
    are served to the end, then with more lines [l2] behind them the run
    shows the same events for [l1] and goes on with [l2] in the session
    left by [l1]; if serving [l1] fails, the run on [l1 ++ l2] is the run
    on [l1]: what is shown for a line never depends on later lines. *)
Theorem served_lines_independent_of_later_input (enc : Encoder) (n b : Z)
    (l1 : list string) :
  ∀ s : session,
    (∃ t s', serve enc n b s l1 = (t ++ [EAsk], inl EOFError) ∧
             ∀ l2, serve enc n b s (l1 ++ l2) = prefixed t (serve enc n b s' l2)) ∨
    ((serve enc n b s l1).2 ≠ inl EOFError ∧
     ∀ l2, serve enc n b s (l1 ++ l2) = serve enc n b s l1).
Proof.
  induction l1 as [|raw_text l1 IH]; intros s.
  - left. exists [], s. split; [reflexivity|]. intros l2. by rewrite prefixed_nil_l.
  - destruct (decide (raw_text = "")) as [->|Hraw].
    + destruct (IH s) as [(t & s' & Heq & Hmore)|[Hne Hsame]].
      * left. exists ([EAsk; EPrint empty_notice] ++ t), s'. split.
        -- rewrite serve_empty_line, Heq. by run_step.
        -- intros l2. rewrite <- app_comm_cons, serve_empty_line, Hmore. by run_step.
      * right. split.
        -- by rewrite serve_empty_line.
        -- intros l2. by rewrite <- app_comm_cons, !serve_empty_line, Hsame.
    + pose proof (serve_prompt_exn enc n b s raw_text) as Hexn.
      destruct (serve_prompt enc n b s raw_text) as [tp [e|s1]] eqn:Hprompt.
      * right. split.
        -- rewrite (serve_prompt_line _ _ _ _ _ _ Hraw), Hprompt. simpl.
           intros [= ->]. by destruct (Hexn _ eq_refl).
        -- intros l2.
           by rewrite <- app_comm_cons, !(serve_prompt_line _ _ _ _ _ _ Hraw), Hprompt.
      * destruct (IH s1) as [(t & s' & Heq & Hmore)|[Hne Hsame]].
        -- left. exists ((EAsk :: tp) ++ t), s'. split.
           ++ rewrite (serve_prompt_line _ _ _ _ _ _ Hraw), Hprompt, pair_bind, Heq.
              run_step. simpl. by rewrite app_assoc.
           ++ intros l2.
              rewrite <- app_comm_cons, (serve_prompt_line _ _ _ _ _ _ Hraw), Hprompt,
                pair_bind, Hmore.
              by run_step.
        -- right. split.
           ++ by rewrite (serve_prompt_line _ _ _ _ _ _ Hraw), Hprompt, pair_bind.
           ++ intros l2.
              by rewrite <- app_comm_cons, !(serve_prompt_line _ _ _ _ _ _ Hraw), Hprompt,
                !pair_bind, Hsame.
Qed.

End WholeInput.

(** ** Prompts that the engine answers *)

Section Answered.
Context `{fw : Framework}.

Lemma engine_rounds_S (b : nat) (ctx : list token) (k : nat) (s : session) :
  engine_rounds b ctx (S k) s =
    res ← sess_run_step (sess_output s) (sess_weights s)
            (np_rng (sess_rngs s), tf_rng (sess_rngs s)) (replicate b ctx);
    rest ← engine_rounds b ctx k
             {| sess_output := sess_output s; sess_weights := sess_weights s;
                sess_rngs := {| np_rng := res.2.1; tf_rng := res.2.2 |} |};
    Some (res.1 :: rest.1, rest.2).
Proof. reflexivity. Qed.

(** The engine is asked once per round. *)
Lemma engine_rounds_length (b : nat) (ctx : list token) (k : nat) :
  ∀ (s : session) arrs s', engine_rounds b ctx k s = Some (arrs, s') → length arrs = k.
Proof.
  induction k as [|k IH]; intros s arrs s' H.
  - by injection H as <- _.
  - rewrite engine_rounds_S in H.
    destruct (sess_run_step _ _ _ _) as [res|]; [|done]. simpl in H.
    destruct (engine_rounds b ctx k _) as [[arrs1 s1]|] eqn:Hrest; [|done].
    simpl in H. injection H as <- <-. simpl. f_equal. by eapply IH.
Qed.

(** The rounds of lines 89-98 when the engine answers each of them with a
    full batch: they show what the engine returned, round after round, and
    leave the session where the engine left it. *)
Lemma generate_rounds_answered (enc : Encoder) (b : Z) (ctx : list token) (k : nat) :
  ∀ (s : session) (g : Z) arrs s',
    engine_rounds (Z.to_nat b) ctx k s = Some (arrs, s') →
    Forall (λ arr, length arr = Z.to_nat b) arrs →
    generate_rounds enc b ctx k s g =
      (rounds_events enc (Z.to_nat b) ctx g arrs,
       inr (g + Z.of_nat k * Z.of_nat (Z.to_nat b), s')).
Proof.
  induction k as [|k IH]; intros s g arrs s' H Hall.
  - injection H as <- <-. simpl. unfold mret, M_ret. do 3 f_equal. lia.
  - pose proof (generate_rounds_step enc b ctx k s g) as Hstep. cbv zeta in Hstep.
    rewrite engine_rounds_S in H. revert H Hstep.
    destruct (sess_run_step _ _ _ _) as [res|]; [|done]. simpl. intros H Hstep.
    destruct (engine_rounds (Z.to_nat b) ctx k _) as [[arrs1 s1]|] eqn:Hrest; [|done].
    simpl in H. injection H as <- <-.
    apply Forall_cons in Hall as [Hres Hall].
    rewrite Hstep, decide_True by lia.
    rewrite (IH _ _ _ _ Hrest Hall), rounds_events_cons.
    unfold prefixed, round_events, samples_events. cbn [fst snd].
    rewrite take_ge by (rewrite length_fmap; lia). rewrite imap_fmap.
    do 3 f_equal. lia.
Qed.

(** Lines 87-99 for one prompt that the engine answers. *)
Lemma serve_prompt_answered (enc : Encoder) (n b : Z) (s : session) (raw_text : string)
    arrs s' :
  engine_rounds (Z.to_nat b) (encode enc raw_text) (Z.to_nat (n `div` b)) s =
    Some (arrs, s') →
  Forall (λ arr, length arr = Z.to_nat b) arrs →
  serve_prompt enc n b s raw_text =
    (EEncode raw_text ::
     rounds_events enc (Z.to_nat b) (encode enc raw_text) 0 arrs ++
     [EPrint closing_separator], inr s').
Proof.
  intros H Hall. unfold serve_prompt. cbv zeta.
  rewrite (generate_rounds_answered _ _ _ _ _ _ _ _ H Hall). by run_step.
Qed.

(** The header of a sample and the closing separator, written out. *)
Lemma sample_header_literal (generated : Z) :
  sample_header generated =
    "======================================== SAMPLE " +:+ pretty generated +:+
    " ========================================".
Proof. reflexivity. Qed.

Lemma closing_separator_literal :
  closing_separator =
    "================================================================================".
Proof. reflexivity. Qed.

(** C3.  Lines 88-99 for a non-empty prompt, with a batch size that is
    positive and divides the sample count, when the engine answers each
    request of the prompt with one sequence per batch slot.  The engine is
    asked exactly [nsamples / batch_size] times, each time with a batch of
    [batch_size] rows, and what it returned is what is shown; the lines
    printed are, in order, a header of forty [=], [ SAMPLE ], the ordinal,
    a blank and forty [=], followed by the text, for the ordinals 1, 2, ...,
    [nsamples], then a line of eighty [=]; and the loop goes on with the
    next line in the session the engine was left in, where the same holds
    again, so that the ordinals of the next prompt start at 1. *)
Theorem rounds_and_ordinals (enc : Encoder) (nsamples batch_size : Z) (s s' : session)
    (raw_text : string) (stdin : list string) (arrs : list (list (list token))) :
  let context_tokens := encode enc raw_text in
  let texts := decode enc <$> (drop (length context_tokens) <$> concat arrs) in
  let shown := EEncode raw_text ::
               rounds_events enc (Z.to_nat batch_size) context_tokens 0 arrs ++
               [EPrint closing_separator] in
  0 < batch_size → 0 ≤ nsamples → nsamples `mod` batch_size = 0 →
  raw_text ≠ "" →
  engine_rounds (Z.to_nat batch_size) context_tokens
    (Z.to_nat (nsamples `div` batch_size)) s = Some (arrs, s') →
  Forall (λ arr, length arr = Z.to_nat batch_size) arrs →
  serve enc nsamples batch_size s (raw_text :: stdin) =
    prefixed (EAsk :: shown) (serve enc nsamples batch_size s' stdin) ∧
  Z.of_nat (length arrs) = nsamples `div` batch_size ∧
  fed shown = replicate (length arrs) (replicate (Z.to_nat batch_size) context_tokens) ∧
  returned shown = arrs ∧
  Z.of_nat (length texts) = nsamples ∧
  printed shown =
    concat (imap (λ i text,
                    ["======================================== SAMPLE " +:+
                     pretty (Z.of_nat i + 1) +:+
                     " ========================================"; text]) texts) ++
    ["================================================================================"].
Proof.
  intros ctx texts shown Hb Hn Hmod Hraw Hengine Hall.
  pose proof (Z.div_pos nsamples batch_size Hn Hb) as Hdiv.
  pose proof (engine_rounds_length _ _ _ _ _ _ Hengine) as Hlen.
  destruct (prompt_trace_projections enc (Z.to_nat batch_size) ctx raw_text arrs)
    as (Hfed & Hret & _ & Hprinted).
  split_and!.
  - rewrite (serve_prompt_line _ _ _ _ _ _ Hraw).
    rewrite (serve_prompt_answered _ _ _ _ _ _ _ Hengine Hall). by run_step.
  - rewrite Hlen. lia.
  - exact Hfed.
  - exact Hret.
  - subst texts. rewrite !length_fmap, (length_concat_uniform _ _ Hall), Hlen.
    rewrite Nat2Z.inj_mul, !Z2Nat.id by lia.
    rewrite Z.mul_comm. symmetry.
    apply (proj2 (Z.div_exact nsamples batch_size ltac:(lia)) Hmod).
  - subst shown texts. rewrite (Hprinted Hall), closing_separator_literal.
    f_equal. rewrite (imap_fmap _ (decode enc)). f_equal.
Qed.

(** C4.  Lines 87-96 for one prompt, when the engine answers each request
    of the prompt with one sequence per batch slot.  Every request feeds
    [batch_size] copies of the encoded prompt; the arrays shown are those
    the engine returned; the sequences handed to [decode] are the returned
    sequences without their first [len(context_tokens)] tokens, in order;
    the texts printed are the decodings of exactly those; and when every
    returned sequence starts with the prompt, it is the prompt followed by
    what was decoded, so that no token of the prompt is decoded. *)
Theorem prompt_replicated_and_stripped (enc : Encoder) (nsamples batch_size : Z)
    (s s' : session) (raw_text : string) (arrs : list (list (list token))) :
  let context_tokens := encode enc raw_text in
  let run := serve_prompt enc nsamples batch_size s raw_text in
  let continuations := drop (length context_tokens) <$> concat arrs in
  engine_rounds (Z.to_nat batch_size) context_tokens
    (Z.to_nat (nsamples `div` batch_size)) s = Some (arrs, s') →
  Forall (λ arr, length arr = Z.to_nat batch_size) arrs →
  run.2 = inr s' ∧
  fed run.1 = replicate (Z.to_nat (nsamples `div` batch_size))
                (replicate (Z.to_nat batch_size) context_tokens) ∧
  returned run.1 = arrs ∧
  decoded run.1 = continuations ∧
  printed run.1 =
    concat (imap (λ i row,
                    ["======================================== SAMPLE " +:+
                     pretty (Z.of_nat i + 1) +:+
                     " ========================================"; decode enc row])
              continuations) ++
    ["================================================================================"] ∧
  (Forall (Forall (λ row, context_tokens `prefix_of` row)) arrs →
   concat arrs = (context_tokens ++.) <$> continuations).
Proof.
  intros ctx run rows Hengine Hall. subst run rows.
  rewrite (serve_prompt_answered _ _ _ _ _ _ _ Hengine Hall). cbn [fst snd].
  fold ctx.
  destruct (prompt_trace_projections enc (Z.to_nat batch_size) ctx raw_text arrs)
    as (Hfed & Hret & Hdec & Hprinted).
  rewrite Hfed, Hret, Hdec, (Hprinted Hall), (engine_rounds_length _ _ _ _ _ _ Hengine).
  split_and!; [done..|].
  intros Hext. symmetry. by apply restore_prefix, Forall_concat.
Qed.

(** When the engine answers every request of the input, the loop ends at
    the end of the input only; it asks once per line and once more, and
    encodes the non-empty lines in order. *)
Lemma serve_serves_all (enc : Encoder) (n b : Z) (stdin : list string) :
  ∀ s : session, engine_serves enc n b stdin s →
    (serve enc n b s stdin).2 = inl EOFError ∧
    encoded (serve enc n b s stdin).1 = filter (λ l, l ≠ "") stdin ∧
    asked (serve enc n b s stdin).1 = S (length stdin).
Proof.
  induction stdin as [|raw_text stdin IH]; intros s Hserves; [done|].
  simpl in Hserves. destruct (decide (raw_text = "")) as [->|Hraw].
  - rewrite serve_empty_line. destruct (IH s Hserves) as (Ho & He & Ha).
    unfold prefixed. cbn [fst snd].
    rewrite encoded_app, asked_app, He, Ha.
    rewrite filter_cons_False; [done|]. intros Hne. by apply Hne.
  - rewrite (serve_prompt_line _ _ _ _ _ _ Hraw).
    destruct Hserves as (arrs & s' & Hengine & Hall & Hrest).
    destruct (serve_prompt_asks_nothing enc n b s raw_text) as [Henc Hask].
    rewrite (serve_prompt_answered _ _ _ _ _ _ _ Hengine Hall) in Henc, Hask |- *.
    cbn [fst snd] in Henc, Hask.
    destruct (IH s' Hrest) as (Ho & He & Ha).
    rewrite pair_bind, prefixed_prefixed. unfold prefixed. cbn [fst snd].
    rewrite !encoded_app, !asked_app, Henc, Hask, He, Ha, filter_cons_True by done.
    done.
Qed.

End Answered.

(** ** Whole runs: accepted lengths, exceptions and phases *)

Section Runs.
Context `{fw : Framework}.

(** A run whose batch check passes and whose encoder and metadata load
    goes on with the length check. *)
Lemma interact_model_loaded (model_name : string) (seed : option Z) (nsamples : Z)
    (batch_size length : option Z) (temperature : float) (top_k : Z) (top_p : float)
    (models_dir : string) (amb : rngs) (stdin : list string)
    (enc : Encoder) (dict : list (string * Z)) :
  let b := default 1 batch_size in
  let dir := expanduser (expandvars models_dir) in
  let hp := overlay default_hparams dict in
  b ≠ 0 → nsamples `mod` b = 0 →
  get_encoder model_name dir = Some enc →
  json_load (path_join dir [model_name; "hparams.json"]) = Some dict →
  interact_model model_name seed nsamples batch_size length temperature top_k top_p
    models_dir amb stdin =
  prefixed (load_events model_name dir)
    (len ← resolve_length length (n_ctx_of hp);
     s ← build_session model_name seed b hp len temperature top_k top_p dir amb;
     serve enc nsamples b s stdin).
Proof.
  intros b dir hp Hb Hm Henc Hjson. unfold interact_model. cbv zeta.
  rewrite (check_batch_passes _ _ Hb Hm), mret_bind. fold b dir.
  rewrite (load_model_metadata_ok _ _ _ _ Henc Hjson).
  by rewrite pair_bind.
Qed.

Lemma build_session_ok (model_name : string) (seed : option Z) (b : Z)
    (hp : gmap string Z) (len : Z) (temperature : float) (top_k : Z) (top_p : float)
    (dir : string) (amb : rngs) (ph : placeholder) (output : sampler) (wts : weights) :
  tf_placeholder b = Some ph →
  np_seed_in_range seed →
  sample_sequence seed hp len ph b temperature top_k top_p = Some output →
  saver_restore (latest_checkpoint (path_join dir [model_name])) = Some wts →
  build_session model_name seed b hp len temperature top_k top_p dir amb =
    (seeding_events seed b ++
     ESampleSequence seed hp len b temperature top_k top_p ::
     restore_events model_name dir,
     inr {| sess_output := output; sess_weights := wts;
            sess_rngs := seeded_rngs seed amb |}).
Proof.
  intros Hph Hseed Hout Hwts.
  destruct (build_session_cases model_name seed b hp len temperature top_k top_p dir amb)
    as [Hb|[[Hno _]|[Hb|[Hb|(output' & wts' & Hb)]]]]; [| done | | |];
    revert Hb; unfold build_session; cbv zeta; rewrite Hph; run_step;
    destruct (np_random_seed seed amb _) as [w|]; run_step; try discriminate;
    change (graph_seed (set_random_seed seed w)) with seed;
    rewrite Hout; run_step; rewrite Hwts; run_step; try discriminate.
  intros [= _ <- <-]. unfold seeding_events, restore_events. simpl.
  by do 3 f_equal.
Qed.

(** X1.  The length check of lines 58-61 is strict.  A length that does not
    exceed the window, the window itself included, is taken as it is: the
    rest of the run is the construction of the session and the loop at that
    length.  No lower bound is checked. *)
Theorem explicit_length_within_window (model_name : string) (seed : option Z)
    (nsamples : Z) (batch_size : option Z) (l : Z) (temperature : float) (top_k : Z)
    (top_p : float) (models_dir : string) (amb : rngs) (stdin : list string)
    (enc : Encoder) (dict : list (string * Z)) :
  let b := default 1 batch_size in
  let dir := expanduser (expandvars models_dir) in
  let hp := overlay default_hparams dict in
  b ≠ 0 → nsamples `mod` b = 0 →
  get_encoder model_name dir = Some enc →
  json_load (path_join dir [model_name; "hparams.json"]) = Some dict →
  l ≤ n_ctx_of hp →
  interact_model model_name seed nsamples batch_size (Some l) temperature top_k top_p
    models_dir amb stdin =
  prefixed (load_events model_name dir)
    (s ← build_session model_name seed b hp l temperature top_k top_p dir amb;
     serve enc nsamples b s stdin).
Proof.
  intros b dir hp Hb Hm Henc Hjson Hl.
  rewrite (interact_model_loaded _ _ _ _ _ _ _ _ _ _ _ _ _ Hb Hm Henc Hjson).
  by rewrite (resolve_length_fits _ _ Hl), mret_bind.
Qed.

End Runs.

Section Phases.
Context `{fw : Framework}.

Ltac distinct_events :=
  unfold construction_events, load_events, seeding_events, restore_events; simpl;
  repeat (apply NoDup_cons; split;
          [rewrite ?not_elem_of_cons; repeat split; try discriminate;
           apply not_elem_of_nil|]);
  apply NoDup_nil_2.

Ltac setup_events := repeat constructor; exact I.

(** X6.  The two phases of a run (lines 45-99).  The trace of every run is a
    part made of construction events, none of them repeated, followed by a
    part made of loop events only.  When the loop part is not empty the
    construction is complete: encoder, hyperparameters, session,
    placeholder, seeding, sampler and restore all happened, once, before
    the first request for input; nothing is loaded, seeded or built again
    while prompts are served. *)
Theorem construction_precedes_loop (model_name : string) (seed : option Z)
    (nsamples : Z) (batch_size length : option Z) (temperature : float) (top_k : Z)
    (top_p : float) (models_dir : string) (amb : rngs) (stdin : list string) :
  let b := default 1 batch_size in
  let dir := expanduser (expandvars models_dir) in
  let run := interact_model model_name seed nsamples batch_size length temperature
               top_k top_p models_dir amb stdin in
  ∃ pre post,
    run.1 = pre ++ post ∧
    Forall setup_event pre ∧ NoDup pre ∧ Forall loop_event post ∧
    (post ≠ [] →
     ∃ hp len, pre = construction_events model_name seed b hp len temperature top_k
                       top_p dir).
Proof.
  intros b dir run.
  destruct (interact_model_cases model_name seed nsamples batch_size length temperature
              top_k top_p models_dir amb stdin)
    as [H|[H|[H|[H|[[hp H]|[(hp&len&bt&H&Hbt)|(enc&hp&len&s0&H&_)]]]]]];
    fold run b dir in H; rewrite H.
  - exists [], []. split_and!; [done|constructor|constructor|constructor|done].
  - exists [], []. split_and!; [done|constructor|constructor|constructor|done].
  - eexists _, []. split_and!; [by rewrite app_nil_r| | |constructor|done].
    + setup_events.
    + simpl. distinct_events.
  - eexists _, []. split_and!; [by rewrite app_nil_r| | |constructor|done].
    + setup_events.
    + unfold load_events. distinct_events.
  - eexists _, []. split_and!; [by rewrite app_nil_r| | |constructor|done].
    + setup_events.
    + unfold load_events. distinct_events.
  - eexists _, []. split_and!; [by rewrite app_nil_r| | |constructor|done].
    + destruct Hbt as [-> | [-> | [-> | ->]]]; setup_events.
    + destruct Hbt as [-> | [-> | [-> | ->]]]; simpl; distinct_events.
  - exists (construction_events model_name seed b hp len temperature top_k top_p dir),
      (serve enc nsamples b s0 stdin).1.
    split_and!.
    + unfold prefixed, construction_events. cbn [fst]. by rewrite <- !app_assoc.
    + setup_events.
    + unfold construction_events. simpl. distinct_events.
    + apply serve_confined.
    + intros _. by exists hp, len.
Qed.

(** X7.  A run in which every collaborator does its part (lines 45-99).  If
    the batch check passes, the encoder and the metadata load, the length
    is unset or within the window, the seed is unset or one that
    [np.random.seed] accepts (0 to 2**32 - 1), the placeholder, the sampler
    and the restore succeed, and the engine answers every request that the
    lines of the input lead to with one sequence per batch slot, then the
    construction is complete, the run ends only when the input does,
    [input] is called once per line and once more, and the texts encoded
    are the non-empty lines of the input, in order. *)
Theorem well_configured_run_serves_every_line (model_name : string) (seed : option Z)
    (nsamples : Z) (batch_size length : option Z) (temperature : float) (top_k : Z)
    (top_p : float) (models_dir : string) (amb : rngs) (stdin : list string)
    (enc : Encoder) (dict : list (string * Z)) (ph : placeholder) (output : sampler)
    (wts : weights) :
  let b := default 1 batch_size in
  let dir := expanduser (expandvars models_dir) in
  let hp := overlay default_hparams dict in
  let len := default (n_ctx_of hp `div` 2) length in
  let run := interact_model model_name seed nsamples batch_size length temperature
               top_k top_p models_dir amb stdin in
  b ≠ 0 → nsamples `mod` b = 0 →
  get_encoder model_name dir = Some enc →
  json_load (path_join dir [model_name; "hparams.json"]) = Some dict →
  (∀ l, length = Some l → l ≤ n_ctx_of hp) →
  tf_placeholder b = Some ph →
  np_seed_in_range seed →
  sample_sequence seed hp len ph b temperature top_k top_p = Some output →
  saver_restore (latest_checkpoint (path_join dir [model_name])) = Some wts →
  engine_serves enc nsamples b stdin
    {| sess_output := output; sess_weights := wts;
       sess_rngs := seeded_rngs seed amb |} →
  ∃ post,
    run = (construction_events model_name seed b hp len temperature top_k top_p dir ++
           post, inl EOFError) ∧
    Forall loop_event post ∧
    encoded run.1 = filter (λ line, line ≠ "") stdin ∧
    asked run.1 = S (Datatypes.length stdin).
Proof.
  intros b dir hp len run Hb Hm Henc Hjson Hlen Hph Hseed Hout Hwts Hengine.
  set (s0 := {| sess_output := output; sess_weights := wts;
                sess_rngs := seeded_rngs seed amb |}) in *.
  assert (Hres : resolve_length length (n_ctx_of hp) = mret len).
  { subst len. destruct length as [l|]; [|done]. simpl.
    apply resolve_length_fits. by apply Hlen. }
  assert (Hrun : run = prefixed (construction_events model_name seed b hp len temperature
                                   top_k top_p dir) (serve enc nsamples b s0 stdin)).
  { subst run.
    rewrite (interact_model_loaded _ _ _ _ _ _ _ _ _ _ _ _ _ Hb Hm Henc Hjson).
    fold b dir hp. rewrite Hres, mret_bind.
    rewrite (build_session_ok _ _ _ _ _ _ _ _ _ _ _ _ _ Hph Hseed Hout Hwts).
    by rewrite pair_bind, prefixed_prefixed. }
  destruct (serve_serves_all enc nsamples b stdin s0 Hengine) as (Hend & Hencoded & Hasked).
  exists (serve enc nsamples b s0 stdin).1. rewrite Hrun. unfold prefixed. cbn [fst snd].
  rewrite Hend, encoded_app, asked_app, Hencoded, Hasked.
  split_and!; [done|apply serve_confined|done|done].
Qed.

(** X4.  What [setattr] in lines 54-55 does to the set of attributes.  The
    attributes of the overlaid object are those of the defaults together
    with the keys of the metadata: no default attribute disappears and
    nothing else appears. *)
Theorem overlay_attributes (hp : gmap string Z) (dict : list (string * Z)) :
  dom (overlay hp dict) = dom hp ∪ list_to_set dict.*1.
Proof.
  revert hp. induction dict as [|[k v] dict IH]; intros hp.
  - simpl. by rewrite (right_id_L ∅ (∪)).
  - rewrite overlay_cons, IH, dom_insert_L, fmap_cons, list_to_set_cons. simpl.
    by rewrite (comm_L (∪) {[k]} (dom hp)), (assoc_L (∪)).
Qed.

(** X5.  Where the window of lines 57-61 comes from.  If the metadata has an
    [n_ctx], that value is the window, whatever the defaults say; if it
    has none, the window is the default [n_ctx], or 1024 when the defaults
    have none either. *)
Theorem window_from_metadata_then_defaults (hp : gmap string Z)
    (dict : list (string * Z)) :
  NoDup dict.*1 →
  (∀ w, ("n_ctx", w) ∈ dict → n_ctx_of (overlay hp dict) = w) ∧
  ("n_ctx" ∉ dict.*1 → n_ctx_of (overlay hp dict) = default 1024 (hp !! "n_ctx")).
Proof.
  intros Hnd. unfold n_ctx_of. split.
  - intros w Hin. by rewrite (overlay_lookup_item _ _ _ _ Hnd Hin).
  - intros Hout. by rewrite (overlay_lookup_other _ _ _ Hout).
Qed.

End Phases.

Section NoRounds.
Context `{fw : Framework}.

(** X13.  Lines 89-99 when [nsamples // batch_size] is not positive (a sample
    count of zero, a negative sample count, or counts of opposite signs).
    [range] is empty: the prompt is encoded, no round is run, nothing is
    decoded, only the closing separator is printed, and the loop goes on in
    the same session.  With the default batch size a negative sample count
    passes the check of line 48 and is served this way. *)
Theorem no_round_without_positive_quotient (enc : Encoder) (nsamples batch_size : Z)
    (s : session) (raw_text : string) (stdin : list string) :
  nsamples `div` batch_size ≤ 0 → raw_text ≠ "" →
  serve enc nsamples batch_size s (raw_text :: stdin) =
    prefixed [EAsk; EEncode raw_text; EPrint closing_separator]
      (serve enc nsamples batch_size s stdin) ∧
  (nsamples < 0 → check_batch nsamples None = mret 1).
Proof.
  intros Hq Hraw. split.
  - rewrite (serve_prompt_line _ _ _ _ _ _ Hraw). unfold serve_prompt.
    replace (Z.to_nat (nsamples `div` batch_size)) with 0%nat by lia.
    change (generate_rounds enc batch_size (encode enc raw_text) 0 s 0)
      with (mret (0, s) : M (Z * session)).
    by run_step.
  - intros _. apply check_batch_passes; [done|]. apply Z.mod_1_r.
Qed.

End NoRounds.

(** ** Witnesses of the properties above on the small frameworks *)

(** An array with two rows too many and an array with one row too few. *)
Example inner_loop_examples :
  decoded (report Demo.demo_encoder [[65]; [66]; [67]; [68]] (seq 0 2) 0).1 =
    [[65]; [66]] ∧
  report Demo.demo_encoder [[65]] (seq 0 2) 0 =
    (samples_events Demo.demo_encoder 0 [[65]], inl IndexError).
Proof. split; reflexivity. Qed.

Lemma short_batch_ends_in_index_error_witness :
  serve (fw := Demo.short_fw) Demo.demo_encoder 2 2
    (@Build_session Demo.short_fw 3 tt (@Build_rngs Demo.short_fw 7 65))
    ["Hi"; "more"] =
  (EAsk :: EEncode "Hi" :: ERun [[72; 105]; [72; 105]] ::
   EReturned [[72; 105; 65; 65; 65]] ::
   samples_events (fw := Demo.short_fw) Demo.demo_encoder 0 [[65; 65; 65]],
   inl IndexError).
Proof.
  apply (short_batch_ends_in_index_error (fw := Demo.short_fw) Demo.demo_encoder 2 2
           (@Build_session Demo.short_fw 3 tt (@Build_rngs Demo.short_fw 7 65))
           "Hi" ["more"] [[72; 105; 65; 65; 65]] (7, 66));
    [discriminate | reflexivity | reflexivity | simpl; lia].
Defined.

Lemma engine_failure_ends_loop_witness :
  serve (fw := Demo.failing_fw) Demo.demo_encoder 2 2
    (@Build_session Demo.failing_fw 3 tt (@Build_rngs Demo.failing_fw 7 65))
    ["Hi"; "more"] =
  ([EAsk; EEncode "Hi"; ERun [[72; 105]; [72; 105]]], inl CollaboratorError).
Proof.
  apply (engine_failure_ends_loop (fw := Demo.failing_fw) Demo.demo_encoder 2 2
           (@Build_session Demo.failing_fw 3 tt (@Build_rngs Demo.failing_fw 7 65))
           "Hi" ["more"]);
    [discriminate | reflexivity | reflexivity].
Defined.

Lemma explicit_length_within_window_witness :
  interact_model "124M" None 1 None (Some 1024) 1 0 1 "models" Demo.amb1 ["Hi"] =
  prefixed (load_events "124M" "models")
    (s ← build_session "124M" None 1
           (overlay Demo.demo_default_hparams Demo.demo_metadata) 1024 1 0 1 "models"
           Demo.amb1;
     serve Demo.demo_encoder 1 1 s ["Hi"]).
Proof.
  apply (explicit_length_within_window (fw := Demo.demo_fw) "124M" None 1 None 1024
           1 0 1 "models" Demo.amb1 ["Hi"] Demo.demo_encoder Demo.demo_metadata);
    [simpl; lia | reflexivity | reflexivity | reflexivity | vm_compute; discriminate].
Defined.

Lemma construction_precedes_loop_witness :
  ∃ pre post,
    (interact_model "124M" None 1 None (Some 3) 1 0 1 "models" Demo.amb1 ["Hi"]).1 =
      pre ++ post ∧
    Forall setup_event pre ∧ NoDup pre ∧ Forall loop_event post ∧
    (post ≠ [] →
     ∃ hp len, pre = construction_events "124M" None 1 hp len 1 0 1 "models").
Proof.
  apply (construction_precedes_loop (fw := Demo.demo_fw) "124M" None 1 None (Some 3)
           1 0 1 "models" Demo.amb1 ["Hi"]).
Defined.

(** Witness of C3: four samples in batches of two for the prompt "Hi"; the
    two arrays are those of the engine, and the lines are written out. *)
Lemma rounds_and_ordinals_witness :
  let arrs := [[[72; 105; 65; 65; 65]; [72; 105; 65; 65; 65]];
               [[72; 105; 66; 66; 66]; [72; 105; 66; 66; 66]]] in
  let s' := @Build_session Demo.demo_fw 3 tt (@Build_rngs Demo.demo_fw 7 67) in
  let shown := EEncode "Hi" ::
               rounds_events Demo.demo_encoder 2 [72; 105] 0 arrs ++
               [EPrint closing_separator] in
  serve Demo.demo_encoder 4 2 Demo.demo_session ["Hi"; "Yo"] =
    prefixed (EAsk :: shown) (serve Demo.demo_encoder 4 2 s' ["Yo"]) ∧
  fed shown = [[[72; 105]; [72; 105]]; [[72; 105]; [72; 105]]] ∧
  returned shown = arrs ∧
  printed shown =
    ["======================================== SAMPLE 1 ========================================";
     "AAA";
     "======================================== SAMPLE 2 ========================================";
     "AAA";
     "======================================== SAMPLE 3 ========================================";
     "BBB";
     "======================================== SAMPLE 4 ========================================";
     "BBB";
     "================================================================================"].
Proof.
  intros arrs s' shown.
  destruct (rounds_and_ordinals (fw := Demo.demo_fw) Demo.demo_encoder 4 2
              Demo.demo_session s' "Hi" ["Yo"] arrs)
    as (Hserve & _ & Hfed & Hreturned & _ & Hprinted);
    [lia | lia | reflexivity | discriminate | reflexivity | repeat constructor |].
  split_and!; [exact Hserve | exact Hfed | exact Hreturned | exact Hprinted].
Defined.

(** Witness of C4: the prompt "Hi" served twice in batches of two. *)
Lemma prompt_replicated_and_stripped_witness :
  let arrs := [[[72; 105; 65; 65; 65]; [72; 105; 65; 65; 65]];
               [[72; 105; 66; 66; 66]; [72; 105; 66; 66; 66]]] in
  let run := serve_prompt Demo.demo_encoder 4 2 Demo.demo_session "Hi" in
  run.2 = inr (@Build_session Demo.demo_fw 3 tt (@Build_rngs Demo.demo_fw 7 67)) ∧
  fed run.1 = [[[72; 105]; [72; 105]]; [[72; 105]; [72; 105]]] ∧
  returned run.1 = arrs ∧
  decoded run.1 = [[65; 65; 65]; [65; 65; 65]; [66; 66; 66]; [66; 66; 66]] ∧
  concat arrs = ([72; 105] ++.) <$> decoded run.1.
Proof.
  intros arrs run.
  destruct (prompt_replicated_and_stripped (fw := Demo.demo_fw) Demo.demo_encoder 4 2
              Demo.demo_session
              (@Build_session Demo.demo_fw 3 tt (@Build_rngs Demo.demo_fw 7 67))
              "Hi" arrs)
    as (Hend & Hfed & Hreturned & Hdecoded & _ & Hext);
    [reflexivity | repeat constructor |].
  split_and!; [exact Hend | exact Hfed | exact Hreturned | exact Hdecoded |].
  unfold run. rewrite Hdecoded. apply Hext.
  repeat constructor; by eexists.
Defined.

Lemma well_configured_run_serves_every_line_witness :
  ∃ post,
    interact_model "124M" (Some 70) 2 (Some 2) (Some 3) 1 0 1 "models" Demo.amb1
      ["Hi"; ""; "Yo"] =
      (construction_events "124M" (Some 70) 2
         (overlay Demo.demo_default_hparams Demo.demo_metadata) 3 1 0 1 "models" ++
       post, inl EOFError) ∧
    Forall loop_event post ∧
    encoded (interact_model "124M" (Some 70) 2 (Some 2) (Some 3) 1 0 1 "models"
               Demo.amb1 ["Hi"; ""; "Yo"]).1 = ["Hi"; "Yo"] ∧
    asked (interact_model "124M" (Some 70) 2 (Some 2) (Some 3) 1 0 1 "models"
             Demo.amb1 ["Hi"; ""; "Yo"]).1 = 4%nat.
Proof.
  apply (well_configured_run_serves_every_line (fw := Demo.demo_fw) "124M" (Some 70) 2
           (Some 2) (Some 3) 1 0 1 "models" Demo.amb1 ["Hi"; ""; "Yo"]
           Demo.demo_encoder Demo.demo_metadata 2 3 tt);
    [simpl; lia | reflexivity | reflexivity | reflexivity
    | intros l [= <-]; vm_compute; discriminate
    | reflexivity | simpl; lia | reflexivity | reflexivity
    | simpl; eexists _, _; split_and!;
      [reflexivity | repeat constructor
      | eexists _, _; split_and!; [reflexivity | repeat constructor | exact I]]].
Defined.

Lemma window_from_metadata_then_defaults_witness :
  n_ctx_of (overlay Demo.demo_default_hparams [("n_ctx", 2048)]) = 2048 ∧
  n_ctx_of (overlay (∅ : gmap string Z) Demo.bare_metadata) = 1024.
Proof.
  split.
  - destruct (window_from_metadata_then_defaults Demo.demo_default_hparams
                [("n_ctx", 2048)]) as [Hin _]; [apply NoDup_singleton|].
    apply Hin. apply list_elem_of_singleton. reflexivity.
  - destruct (window_from_metadata_then_defaults ∅ Demo.bare_metadata) as [_ Hout];
      [apply NoDup_singleton|].
    apply Hout. intros Hin. apply list_elem_of_singleton in Hin. discriminate.
Defined.

Lemma no_round_without_positive_quotient_witness :
  serve Demo.demo_encoder (-2) 1 Demo.demo_session ["Hi"] =
    prefixed [EAsk; EEncode "Hi"; EPrint closing_separator]
      (serve Demo.demo_encoder (-2) 1 Demo.demo_session []) ∧
  check_batch (fw := Demo.demo_fw) (-2) None = mret 1.
Proof.
  destruct (no_round_without_positive_quotient (fw := Demo.demo_fw) Demo.demo_encoder
              (-2) 1 Demo.demo_session "Hi" []) as [Hloop Hcheck];
    [vm_compute; discriminate | discriminate |].
  split; [exact Hloop | apply Hcheck; lia].
Defined.
